(** * Changelog writer of cdk-release: a shallow embedding and its properties

    Source: [tools/cdk-release/lib/lifecycles/changelog.ts].

    The module renders a list of conventional commits through an external
    changelog writer, splices the rendered text in front of the history kept
    in an existing changelog file, and dispatches over the treatment of
    experimental (unstable) packages.

    Conventions of the embedding:
    - a JavaScript string is a [string]: the sequence of bytes of its UTF-8
      encoding (the files are read and written as UTF-8);
    - an optional field [x?: T] is an [option T], with JavaScript truthiness
      written out where the source relies on it;
    - the file system and the notification sink are an explicit [World] that
      every operation threads; each call that reaches them is appended to a
      chronological trace;
    - a promise is its final state: [Pending], [Resolved] or [Rejected]. *)

From Stdlib Require Import ZArith Ascii String List Lia Bool.
From stdpp Require Import base option strings list gmap.

Local Open Scope string_scope.

(** Concatenation is to reduce on a string that starts with a character. *)
Arguments String.append !s1 s2 : simpl nomatch.

(** ** JavaScript strings *)

Module Js.

Definition LF : ascii := "010"%char.
Definition CR : ascii := "013"%char.
Definition DQUOTE : ascii := "034"%char.

(** The one-character strings of a line feed and of a double quote. *)
Definition nl : string := String LF EmptyString.
Definition dq : string := String DQUOTE EmptyString.

(** [s.substring(start)] of a string: a negative start counts as 0, a start
    past the end gives the empty string. *)
Fixpoint drop (n : nat) (s : string) : string :=
  match n, s with
  | O, _ => s
  | S n', String _ r => drop n' r
  | S _, EmptyString => EmptyString
  end.

Definition substring (start : Z) (s : string) : string := drop (Z.to_nat start) s.

Fixpoint concat (chunks : list string) : string :=
  match chunks with
  | [] => EmptyString
  | c :: rest => c +:+ concat rest
  end.

(** String conversion of an optional value in a concatenation:
    [undefined + '\n'] is ["undefined\n"]. *)
Definition to_string (v : option string) : string :=
  match v with
  | Some s => s
  | None => "undefined"
  end.

(** Truthiness of an optional boolean ([undefined] and [false] are falsy) and
    of an optional string ([undefined] and [''] are falsy). *)
Definition truthy_bool (v : option bool) : bool :=
  match v with
  | Some b => b
  | None => false
  end.

Definition truthy_string (v : option string) : bool :=
  match v with
  | Some EmptyString => false
  | Some (String _ _) => true
  | None => false
  end.

Definition is_digit (c : ascii) : bool :=
  (N_of_ascii "0" <=? N_of_ascii c)%N && (N_of_ascii c <=? N_of_ascii "9")%N.

Fixpoint all_chars (p : ascii -> bool) (s : string) : bool :=
  match s with
  | EmptyString => true
  | String c r => p c && all_chars p r
  end.

End Js.

(** ** The two regular expressions of the module *)

Module Pattern.
Import Js.

(** A multiline [^] holds at offset 0 and right after a line terminator:
    LF, CR, U+2028 or U+2029 (the last two are the UTF-8 sequences
    E2 80 A8 and E2 80 A9).  [before] holds the characters already passed,
    the nearest one first. *)
Definition at_line_start (before : list ascii) : bool :=
  match before with
  | [] => true
  | c :: _ =>
      if Ascii.eqb c LF || Ascii.eqb c CR then true
      else
        match before with
        | c3 :: c2 :: c1 :: _ =>
            Ascii.eqb c1 "226" && Ascii.eqb c2 "128"
            && (Ascii.eqb c3 "168" || Ascii.eqb c3 "169")
        | _ => false
        end
  end.

(** [[0-9]*]: what is left after the longest run of digits. *)
Fixpoint skip_digits (s : string) : string :=
  match s with
  | String c r => if is_digit c then skip_digits r else s
  | EmptyString => EmptyString
  end.

(** [[0-9]+]: the rest after a non-empty run of digits. *)
Definition digits1 (s : string) : option string :=
  match s with
  | String c r => if is_digit c then Some (skip_digits r) else None
  | EmptyString => None
  end.

(** [\.] *)
Definition dot (s : string) : option string :=
  match s with
  | String c r => if Ascii.eqb c "." then Some r else None
  | EmptyString => None
  end.

(** [[0-9]+\.[0-9]+\.[0-9]+] at the head of [s]. *)
Definition version_number (s : string) : bool :=
  match digits1 s with
  | Some s1 =>
      match dot s1 with
      | Some s2 =>
          match digits1 s2 with
          | Some s3 =>
              match dot s3 with
              | Some s4 =>
                  match digits1 s4 with
                  | Some _ => true
                  | None => false
                  end
              | None => false
              end
          | None => false
          end
      | None => false
      end
  | None => false
  end.

(** [#*] *)
Fixpoint skip_hashes (s : string) : string :=
  match s with
  | String c r => if Ascii.eqb c "#" then skip_hashes r else s
  | EmptyString => EmptyString
  end.

(** [#+ \[?[0-9]+\.[0-9]+\.[0-9]+] at the head of [s] (the [^] is checked by
    the caller). *)
Definition heading (s : string) : bool :=
  match s with
  | String c r =>
      if Ascii.eqb c "#" then
        match skip_hashes r with
        | String sp r1 =>
            if Ascii.eqb sp " " then
              match r1 with
              | String br r2 =>
                  if Ascii.eqb br "[" then version_number r2
                  else version_number r1
              | EmptyString => false
              end
            else false
        | EmptyString => false
        end
      else false
  | EmptyString => false
  end.

(** Does [START_OF_LAST_RELEASE_PATTERN] match at the head of [s], given what
    precedes it? *)
Definition START_OF_LAST_RELEASE_PATTERN (before : list ascii) (s : string) : bool :=
  (at_line_start before && heading s) || String.prefix "<a name=" s.

(** [s.search(START_OF_LAST_RELEASE_PATTERN)]: the least offset at which the
    pattern matches.  Both alternatives consume at least one character, so
    the end of the string is never a match. *)
Fixpoint search_from (before : list ascii) (pos : nat) (s : string) : option nat :=
  match s with
  | EmptyString => None
  | String c r =>
      if START_OF_LAST_RELEASE_PATTERN before s then Some pos
      else search_from (c :: before) (S pos) r
  end.

Definition search (s : string) : Z :=
  match search_from [] 0 s with
  | Some i => Z.of_nat i
  | None => (-1)%Z
  end.

(** [s.replace(/\n+$/, '\n')].  The pattern has no [m] flag, so [$] is the
    end of the string; the leftmost match starts at the first offset from
    which only newlines follow, and there is no match when the string does
    not end with a newline. *)
Definition newline (c : ascii) : bool := Ascii.eqb c LF.

Fixpoint replace_trailing_newlines (s : string) : string :=
  match s with
  | EmptyString => EmptyString
  | String c r =>
      if newline c && all_chars newline r then nl
      else String c (replace_trailing_newlines r)
  end.

End Pattern.

(** ** Data model *)

(** The version pair of a release; the alpha version exists only when the
    repository has unstable packages. *)
Record Versions : Type := {
  stableVersion : string;
  alphaVersion : option string;
}.

Record PackageInfo : Type := {
  simplifiedName : string;
  location : string;
  unstable : bool;
}.

Module LifecyclesSkip.
Record t : Type := { changelog : option bool }.
End LifecyclesSkip.

Record ChangelogOptions : Type := {
  skip : option LifecyclesSkip.t;
  changelogFile : string;
  dryRun : option bool;
  verbose : option bool;
  silent : option bool;
  experimentalChangesTreatment : option string;
  changeLogHeader : option string;
  includeDateInChangelog : option bool;
  releaseCommitMessageFormat : option string;
}.

(** [{ ...args, changelogFile: file }] *)
Definition with_changelogFile (args : ChangelogOptions) (file : string) : ChangelogOptions :=
  {| skip := skip args;
     changelogFile := file;
     dryRun := dryRun args;
     verbose := verbose args;
     silent := silent args;
     experimentalChangesTreatment := experimentalChangesTreatment args;
     changeLogHeader := changeLogHeader args;
     includeDateInChangelog := includeDateInChangelog args;
     releaseCommitMessageFormat := releaseCommitMessageFormat args |}.

Record ChangelogResult : Type := {
  filePath : string;
  fileContents : string;
}.

(** Modelled from the spec: the commit record of [lib/conventional-commits],
    which is not part of the sources at hand.  The spec lists its content as
    type, scope, subject, breaking-change flag and associated package names,
    a commit being associated with zero or more package names. *)
Record ConventionalCommit : Type := {
  commitType : string;
  scope : option string;
  subject : string;
  breaking : bool;
  packageNames : list string;
}.

Record FilterCommitsOptions : Type := {
  excludePackages : option (list string);
  includePackages : option (list string);
}.

Definition named_in (names : list string) (n : string) : bool :=
  existsb (String.eqb n) names.

(** A commit associated with at least one of the names. *)
Definition associated_with (names : list string) (c : ConventionalCommit) : bool :=
  existsb (named_in names) (packageNames c).

(** A commit associated with some package, and with none outside the names. *)
Definition associated_only_with (names : list string) (c : ConventionalCommit) : bool :=
  match packageNames c with
  | [] => false
  | _ :: _ => forallb (named_in names) (packageNames c)
  end.

(** Modelled from the spec: [filterCommits] of [lib/conventional-commits],
    which is not part of the sources at hand.  With [includePackages] the
    commits are filtered to those packages (the commits associated with one
    of them are kept); with [excludePackages] every commit associated only
    with excluded packages is dropped and all the others are kept; an option
    that is absent filters nothing. *)
Definition filterCommits (commits : list ConventionalCommit) (opts : FilterCommitsOptions)
  : list ConventionalCommit :=
  let included :=
    match includePackages opts with
    | Some names => List.filter (associated_with names) commits
    | None => commits
    end in
  match excludePackages opts with
  | Some names => List.filter (fun c => negb (associated_only_with names c)) included
  | None => included
  end.

(** The context object given to the writer. *)
Record WriterContext : Type := {
  issue : string;
  commit : string;
  version : string;
  host : string;
  owner : string;
  repository : string;
  repoUrl : string;
  linkCompare : bool;
  previousTag : string;
  currentTag : string;
  isPatch : bool;
}.

(** What [finalizeContext] sees of the writer's render context: the note
    groups and the date; [otherFields] stands for every property the hook
    does not look at. *)
Record NoteGroup : Type := {
  title : string;
  notes : list string;
}.

Record RenderContext : Type := {
  noteGroups : option (list NoteGroup);
  date : option string;
  otherFields : list (string * string);
}.

(** The writer options: the preset's own options with [finalizeContext]
    overridden. *)
Record WriterOpts (P : Type) : Type := {
  presetOpts : P;
  finalizeContext : RenderContext -> RenderContext;
}.
Arguments presetOpts {P} _.
Arguments finalizeContext {P} _ _.

(** What the stream returned by the writer emits. *)
Inductive StreamEvent (E : Type) : Type :=
| OnData (buffer : string)
| OnError (err : E)
| OnEnd.
Arguments OnData {E} buffer.
Arguments OnError {E} err.
Arguments OnEnd {E}.

(** Why a promise is rejected: an [Error] built by this module, the value
    carried by the stream's error event, or [fs.readFileSync] finding no
    file. *)
Inductive Reason (E : Type) : Type :=
| Error (message : string)
| Emitted (err : E)
| ENOENT (path : string).
Arguments Error {E} message.
Arguments Emitted {E} err.
Arguments ENOENT {E} path.

Inductive Promise (E A : Type) : Type :=
| Pending
| Resolved (value : A)
| Rejected (reason : Reason E).
Arguments Pending {E A}.
Arguments Resolved {E A} value.
Arguments Rejected {E A} reason.

(** [await p] followed by [return f(value)] in an async function. *)
Definition then_return {E A B : Type} (f : A -> B) (p : Promise E A) : Promise E B :=
  match p with
  | Pending => Pending
  | Resolved v => Resolved (f v)
  | Rejected r => Rejected r
  end.

(** [resolve] and [reject] settle a promise once; later calls do nothing. *)
Definition settle {E A : Type} (outcome : Promise E A) (p : Promise E A) : Promise E A :=
  match p with
  | Pending => outcome
  | _ => p
  end.

(** ** The world: files and notifications *)

Inductive Event : Type :=
| ExistsSync (path : string)
| ReadFileSync (path : string)
| WriteFileSync (path content : string)
| Notify (msg : string) (params : list string)
| Debug (msg : string).

Record World : Type := {
  files : gmap string string;
  trace : list Event;
}.

Definition record (e : Event) (w : World) : World :=
  {| files := files w; trace := (trace w ++ [e])%list |}.

Definition existsSync (path : string) (w : World) : World * bool :=
  (record (ExistsSync path) w, bool_decide (is_Some (files w !! path))).

(** [None] stands for the exception of reading a file that is not there. *)
Definition readFileSync (path : string) (w : World) : World * option string :=
  (record (ReadFileSync path) w, files w !! path).

Definition writeFileSync (path content : string) (w : World) : World :=
  {| files := <[path := content]> (files w);
     trace := (trace w ++ [WriteFileSync path content])%list |}.

(** Modelled from the spec: [writeFile] of [lib/private/files], which is not
    part of the sources at hand.  It receives the options and writes the
    file unless this is a dry run. *)
Definition writeFile (args : ChangelogOptions) (path content : string) (w : World) : World :=
  if Js.truthy_bool (dryRun args) then w else writeFileSync path content w.

(** Modelled from the spec: [notify] and [debug] of [lib/private/print],
    which are not part of the sources at hand: the notification sink,
    invoked with a message template and its arguments.  The invocation is
    recorded. *)
Definition notify (args : ChangelogOptions) (msg : string) (params : list string) (w : World)
  : World := record (Notify msg params) w.

Definition debug (args : ChangelogOptions) (msg : string) (w : World) : World :=
  record (Debug msg) w.

(** ** The external collaborators *)

(** The platform and third-party functions the module calls: [path.join] on
    two segments, [String.prototype.trim], the preset loader (reduced to the
    [writerOpts] of the preset it loads by name) and the changelog writer,
    a function from context, options and commits to the events its stream
    emits, in order. *)
Class Collaborators : Type := {
  StreamErr : Type;
  PresetWriterOpts : Type;
  path_join : string -> string -> string;
  trim : string -> string;
  conventionalChangelogPresetLoader : string -> PresetWriterOpts;
  conventionalChangelogWriter :
    WriterContext -> WriterOpts PresetWriterOpts -> list ConventionalCommit
    -> list (StreamEvent StreamErr);
}.

(** ** The operations of [changelog.ts] *)

Section Operations.
Context {ext : Collaborators}.

Local Abbreviation Settled := (Promise StreamErr).

Definition createChangelogIfMissing (args : ChangelogOptions) (w : World) : World :=
  let '(w1, present) := existsSync (changelogFile args) w in
  if negb present then
    writeFile args (changelogFile args) Js.nl
      (notify args "created %s" [changelogFile args] w1)
  else w1.

(** [changelog] up to its first [await]: the file is created when missing,
    the old content is read (not in a dry run) and cut at the start of the
    last release.  [None] stands for the exception of [readFileSync]. *)
Definition changelog_prefix (args : ChangelogOptions) (w : World) : World * option string :=
  let w1 := createChangelogIfMissing args w in
  let '(w2, read) :=
    if Js.truthy_bool (dryRun args) then (w1, Some EmptyString)
    else readFileSync (changelogFile args) w1 in
  match read with
  | None => (w2, None)
  | Some oldContent =>
      let oldContentStart := Pattern.search oldContent in
      if negb (oldContentStart =? -1)%Z
      then (w2, Some (Js.substring oldContentStart oldContent))
      else (w2, Some oldContent)
  end.

Definition context (currentVersion newVersion : string) : WriterContext :=
  let host := "https://github.com" in
  let owner := "aws" in
  let repository := "aws-cdk" in
  {| issue := "issues";
     commit := "commit";
     version := newVersion;
     host := host;
     owner := owner;
     repository := repository;
     repoUrl := host +:+ "/" +:+ owner +:+ "/" +:+ repository;
     linkCompare := true;
     previousTag := "v" +:+ currentVersion;
     currentTag := "v" +:+ newVersion;
     isPatch := false |}.

Definition retitle (noteGroup : NoteGroup) : NoteGroup :=
  if String.eqb (title noteGroup) "BREAKING CHANGES"
  then {| title := "BREAKING CHANGES TO EXPERIMENTAL FEATURES"; notes := notes noteGroup |}
  else noteGroup.

(** The [finalizeContext] hook handed to the writer. *)
Definition changelog_finalizeContext (args : ChangelogOptions) (ctx : RenderContext)
  : RenderContext :=
  {| noteGroups := option_map (List.map retitle) (noteGroups ctx);
     date :=
       match includeDateInChangelog args with
       | Some false => None
       | _ => date ctx
       end;
     otherFields := otherFields ctx |}.

Definition writerOpts (args : ChangelogOptions) : WriterOpts PresetWriterOpts :=
  {| presetOpts := conventionalChangelogPresetLoader "conventional-changelog-conventionalcommits";
     finalizeContext := changelog_finalizeContext args |}.

(** The events of [changelogStream]. *)
Definition changelogStream (args : ChangelogOptions) (currentVersion newVersion : string)
  (commits : list ConventionalCommit) : list (StreamEvent StreamErr) :=
  conventionalChangelogWriter (context currentVersion newVersion) (writerOpts args) commits.

(** The state the three stream handlers share: the text collected so far
    and the promise they settle. *)
Record Collected : Type := {
  content : string;
  promise : Settled string;
}.

Definition handle (args : ChangelogOptions) (oldContent : string)
  (st : World * Collected) (ev : StreamEvent StreamErr) : World * Collected :=
  let '(w, c) := st in
  match ev with
  | OnError err =>
      (w, {| content := content c; promise := settle (Rejected (Emitted err)) (promise c) |})
  | OnData buffer =>
      (w, {| content := content c +:+ buffer; promise := promise c |})
  | OnEnd =>
      let w1 := notify args "outputting changes to %s" [changelogFile args] w in
      let w2 :=
        if Js.truthy_bool (dryRun args) then
          debug args (Js.nl +:+ "---" +:+ Js.nl +:+ trim (content c) +:+ Js.nl +:+ "---" +:+ Js.nl) w1
        else
          writeFile args (changelogFile args)
            (Js.to_string (changeLogHeader args) +:+ Js.nl
             +:+ Pattern.replace_trailing_newlines (content c +:+ oldContent)) w1 in
      (w2, {| content := content c; promise := settle (Resolved (content c)) (promise c) |})
  end.

(** [changelog] from its first [await] on: the stream is built and its
    events are handled in order. *)
Definition changelog_render (args : ChangelogOptions) (currentVersion newVersion : string)
  (commits : list ConventionalCommit) (oldContent : string) (w : World)
  : World * Settled string :=
  let '(w', c) :=
    fold_left (handle args oldContent) (changelogStream args currentVersion newVersion commits)
      (w, {| content := EmptyString; promise := Pending |}) in
  (w', promise c).

(** A call of [changelog] suspended at its first [await]. *)
Record Suspended : Type := {
  call_args : ChangelogOptions;
  call_currentVersion : string;
  call_newVersion : string;
  call_commits : list ConventionalCommit;
  call_oldContent : option string;
}.

Definition suspend (args : ChangelogOptions) (currentVersion newVersion : string)
  (commits : list ConventionalCommit) (w : World) : World * Suspended :=
  let '(w1, old) := changelog_prefix args w in
  (w1, {| call_args := args;
          call_currentVersion := currentVersion;
          call_newVersion := newVersion;
          call_commits := commits;
          call_oldContent := old |}).

Definition resume (call : Suspended) (w : World) : World * Settled string :=
  match call_oldContent call with
  | None => (w, Rejected (ENOENT (changelogFile (call_args call))))
  | Some oldContent =>
      changelog_render (call_args call) (call_currentVersion call) (call_newVersion call)
        (call_commits call) oldContent w
  end.

Definition changelog (args : ChangelogOptions) (currentVersion newVersion : string)
  (commits : list ConventionalCommit) (w : World) : World * Settled string :=
  let '(w1, call) := suspend args currentVersion newVersion commits w in
  resume call w1.

(** *** The [separate] treatment *)

(** The body of the [forEach] callback up to its [await]. *)
Definition start_package (args : ChangelogOptions) (currentAlpha newAlpha : string)
  (commits : list ConventionalCommit) (pkg : PackageInfo) (w : World) : World * Suspended :=
  let pkgCommits :=
    filterCommits commits
      {| excludePackages := None; includePackages := Some [simplifiedName pkg] |} in
  let pkgChangelog := path_join (location pkg) (changelogFile args) in
  let pkgArgs := with_changelogFile args pkgChangelog in
  suspend pkgArgs currentAlpha newAlpha pkgCommits w.

(** [unstablePackages.forEach(async ...)]: the callback is not awaited, so
    every call runs to its first [await], one package after the other. *)
Fixpoint forEach_start (args : ChangelogOptions) (currentAlpha newAlpha : string)
  (commits : list ConventionalCommit) (unstablePackages : list PackageInfo) (w : World)
  : World * list Suspended :=
  match unstablePackages with
  | [] => (w, [])
  | pkg :: rest =>
      let '(w1, call) := start_package args currentAlpha newAlpha commits pkg w in
      let '(w2, calls) := forEach_start args currentAlpha newAlpha commits rest w1 in
      (w2, call :: calls)
  end.

(** The rest of the callback: when the render resolves, its result is pushed
    on the shared [changelogResults]. *)
Definition finish_package (call : Suspended) (st : World * list ChangelogResult)
  : World * list ChangelogResult :=
  let '(w, changelogResults) := st in
  let '(w1, p) := resume call w in
  match p with
  | Resolved contents =>
      (w1, (changelogResults
            ++ [{| filePath := changelogFile (call_args call); fileContents := contents |}])%list)
  | _ => (w1, changelogResults)
  end.

(** The event loop completes the suspended package renders in an order of
    its own.  [order] lists the indices of those that complete before the
    stable render does; an index that names no suspended render (out of
    range, or completed already) is passed over. *)
Fixpoint complete_in_order (order : list nat) (suspended : list (option Suspended))
  (st : World * list ChangelogResult) : World * list ChangelogResult :=
  match order with
  | [] => st
  | i :: rest =>
      match suspended !! i with
      | Some (Some call) =>
          complete_in_order rest (<[i := None]> suspended) (finish_package call st)
      | _ => complete_in_order rest suspended st
      end
  end.

Definition separate (order : list nat) (args : ChangelogOptions)
  (currentVersion newVersion : Versions) (stableCommits commits : list ConventionalCommit)
  (unstablePackages : list PackageInfo) (w : World)
  : World * Settled (list ChangelogResult) :=
  if negb (Js.truthy_string (alphaVersion currentVersion))
     || negb (Js.truthy_string (alphaVersion newVersion))
  then
    (w, Rejected (Error ("unable to create " +:+ Js.dq +:+ "separate" +:+ Js.dq
                         +:+ " changelogs without alpha package versions")))
  else
    (* [alphaVersion!]: past the guard both versions are present *)
    let currentAlpha := default EmptyString (alphaVersion currentVersion) in
    let newAlpha := default EmptyString (alphaVersion newVersion) in
    let '(w1, calls) := forEach_start args currentAlpha newAlpha commits unstablePackages w in
    let '(w2, stable) :=
      suspend args (stableVersion currentVersion) (stableVersion newVersion) stableCommits w1 in
    let '(w3, changelogResults) := complete_in_order order (Some <$> calls) (w2, []) in
    let '(w4, p) := resume stable w3 in
    (w4, then_return
           (fun contents =>
              (changelogResults
               ++ [{| filePath := changelogFile args; fileContents := contents |}])%list) p).

(** [order] is the part of the event loop's schedule the result depends on;
    it matters for the [separate] treatment only. *)
Definition writeChangelogs (order : list nat) (args : ChangelogOptions)
  (currentVersion newVersion : Versions) (commits : list ConventionalCommit)
  (packages : list PackageInfo) (w : World) : World * Settled (list ChangelogResult) :=
  if Js.truthy_bool (skip args ≫= LifecyclesSkip.changelog) then (w, Resolved [])
  else
    let treatment := default "include" (experimentalChangesTreatment args) in
    let unstablePackages := List.filter unstable packages in
    let stableCommits :=
      filterCommits commits
        {| excludePackages := Some (List.map simplifiedName unstablePackages);
           includePackages := None |} in
    if String.eqb treatment "include" then
      let '(w1, p) :=
        changelog args (stableVersion currentVersion) (stableVersion newVersion) commits w in
      (w1, then_return
             (fun contents => [{| filePath := changelogFile args; fileContents := contents |}]) p)
    else if String.eqb treatment "strip" then
      let '(w1, p) :=
        changelog args (stableVersion currentVersion) (stableVersion newVersion) stableCommits w in
      (w1, then_return
             (fun contents => [{| filePath := changelogFile args; fileContents := contents |}]) p)
    else if String.eqb treatment "separate" then
      separate order args currentVersion newVersion stableCommits commits unstablePackages w
    else
      (w, Rejected (Error ("unsupported experimentalChanges type: "
                           +:+ Js.to_string (experimentalChangesTreatment args)))).

(** *** Notions used to state the properties *)

(** What the promise of a render settles to, read off the events alone: the
    text of the chunks up to the first end signal, or the first error. *)
Fixpoint outcome_of (content : string) (events : list (StreamEvent StreamErr))
  : Settled string :=
  match events with
  | [] => Pending
  | OnData buffer :: rest => outcome_of (content +:+ buffer) rest
  | OnError err :: _ => Rejected (Emitted err)
  | OnEnd :: _ => Resolved content
  end.

(** [r] is the result of the render for the unstable package [pkg]: its
    path is the changelog of the package, its contents the text rendered
    from the commits filtered to the package, with the alpha version pair. *)
Definition package_result (args : ChangelogOptions) (currentAlpha newAlpha : string)
  (commits : list ConventionalCommit) (pkg : PackageInfo) (r : ChangelogResult) : Prop :=
  filePath r = path_join (location pkg) (changelogFile args)
  /\ outcome_of EmptyString
       (changelogStream
          (with_changelogFile args (path_join (location pkg) (changelogFile args)))
          currentAlpha newAlpha
          (filterCommits commits
             {| excludePackages := None; includePackages := Some [simplifiedName pkg] |}))
     = Resolved (fileContents r).

(** A call suspended by the [forEach] callback for [pkg]. *)
Definition started_for (args : ChangelogOptions) (currentAlpha newAlpha : string)
  (commits : list ConventionalCommit) (pkg : PackageInfo) (call : Suspended) : Prop :=
  call_args call = with_changelogFile args (path_join (location pkg) (changelogFile args))
  /\ call_currentVersion call = currentAlpha
  /\ call_newVersion call = newAlpha
  /\ call_commits call
     = filterCommits commits
         {| excludePackages := None; includePackages := Some [simplifiedName pkg] |}
  /\ is_Some (call_oldContent call).

(** What the callback pushes for a call once its render has settled. *)
Definition pushed (call : Suspended) : list ChangelogResult :=
  match outcome_of EmptyString
          (changelogStream (call_args call) (call_currentVersion call)
             (call_newVersion call) (call_commits call)) with
  | Resolved contents =>
      [{| filePath := changelogFile (call_args call); fileContents := contents |}]
  | _ => []
  end.

(** The single result of the [include] and [strip] treatments. *)
Definition single_result (args : ChangelogOptions) (p : Settled string)
  : Settled (list ChangelogResult) :=
  then_return (fun contents => [{| filePath := changelogFile args; fileContents := contents |}]) p.

End Operations.

(** An event that reads or writes the content of a file. *)
Definition touches_content (e : Event) : bool :=
  match e with
  | ReadFileSync _ | WriteFileSync _ _ => true
  | _ => false
  end.

Definition is_write (e : Event) : bool :=
  match e with
  | WriteFileSync _ _ => true
  | _ => false
  end.

(** [{ ...args, experimentalChangesTreatment: treatment }] *)
Definition with_treatment (args : ChangelogOptions) (treatment : option string)
  : ChangelogOptions :=
  {| skip := skip args;
     changelogFile := changelogFile args;
     dryRun := dryRun args;
     verbose := verbose args;
     silent := silent args;
     experimentalChangesTreatment := treatment;
     changeLogHeader := changeLogHeader args;
     includeDateInChangelog := includeDateInChangelog args;
     releaseCommitMessageFormat := releaseCommitMessageFormat args |}.

(** The number of newlines a string ends with. *)
Fixpoint trailing_newlines (s : string) : nat :=
  match s with
  | EmptyString => 0
  | String c r =>
      if Pattern.newline c && Js.all_chars Pattern.newline r then S (String.length r)
      else trailing_newlines r
  end.

(** ** A small instance of the collaborators, to run the model

    A renderer that writes one heading with the new version and one bullet
    per commit, and fails on a commit whose type is [poison]. *)
Module Demo.

Definition bullet (c : ConventionalCommit) : StreamEvent string :=
  OnData ("* " +:+ subject c +:+ Js.nl).

Definition writer (ctx : WriterContext) (opts : WriterOpts string)
  (commits : list ConventionalCommit) : list (StreamEvent string) :=
  if existsb (fun c => String.eqb (commitType c) "poison") commits
  then [OnError "poisoned"]
  else (OnData ("## " +:+ version ctx +:+ Js.nl) :: List.map bullet commits ++ [OnEnd])%list.

Definition collaborators : Collaborators :=
  {| StreamErr := string;
     PresetWriterOpts := string;
     path_join := fun dir file => dir +:+ "/" +:+ file;
     trim := fun s => s;
     conventionalChangelogPresetLoader := fun name => name;
     conventionalChangelogWriter := writer |}.

Definition options (treatment : option string) : ChangelogOptions :=
  {| skip := None;
     changelogFile := "CHANGELOG.md";
     dryRun := None;
     verbose := None;
     silent := None;
     experimentalChangesTreatment := treatment;
     changeLogHeader := Some "# Changelog";
     includeDateInChangelog := Some false;
     releaseCommitMessageFormat := None |}.

Definition feat (name : string) (pkgs : list string) : ConventionalCommit :=
  {| commitType := "feat"; scope := None; subject := name; breaking := false;
     packageNames := pkgs |}.

Definition v1 : Versions := {| stableVersion := "1.2.0"; alphaVersion := Some "1.2.0-alpha.0" |}.
Definition v2 : Versions := {| stableVersion := "1.3.0"; alphaVersion := Some "1.3.0-alpha.0" |}.

Definition stable_pkg : PackageInfo :=
  {| simplifiedName := "aws-s3"; location := "packages/aws-s3"; unstable := false |}.
Definition unstable_pkg : PackageInfo :=
  {| simplifiedName := "aws-batch"; location := "packages/aws-batch"; unstable := true |}.

Definition commits : list ConventionalCommit :=
  [feat "buckets" ["aws-s3"]; feat "queues" ["aws-batch"]; feat "docs" []].

Definition empty_world : World := {| files := ∅; trace := [] |}.

Definition skipping : ChangelogOptions :=
  {| skip := Some {| LifecyclesSkip.changelog := Some true |};
     changelogFile := "CHANGELOG.md";
     dryRun := None;
     verbose := None;
     silent := None;
     experimentalChangesTreatment := Some "separate";
     changeLogHeader := None;
     includeDateInChangelog := None;
     releaseCommitMessageFormat := None |}.

Definition history : string :=
  "# Unreleased" +:+ Js.nl +:+ Js.nl +:+ "## [1.2.0]" +:+ Js.nl +:+ "* old entry".

Definition world_with_history : World :=
  {| files := {[ "CHANGELOG.md" := history ]}; trace := [] |}.

Definition dry : ChangelogOptions :=
  {| skip := None;
     changelogFile := "CHANGELOG.md";
     dryRun := Some true;
     verbose := Some true;
     silent := None;
     experimentalChangesTreatment := None;
     changeLogHeader := Some "# Changelog";
     includeDateInChangelog := None;
     releaseCommitMessageFormat := None |}.

Definition poison : ConventionalCommit :=
  {| commitType := "poison"; scope := None; subject := "bad"; breaking := false;
     packageNames := [] |}.

(** The chunks the renderer gives for all the commits at version 1.3.0. *)
Definition chunks : list string :=
  ["## 1.3.0" +:+ Js.nl; "* buckets" +:+ Js.nl; "* queues" +:+ Js.nl; "* docs" +:+ Js.nl].

Definition stable_result : ChangelogResult :=
  {| filePath := "CHANGELOG.md";
     fileContents := "## 1.3.0" +:+ Js.nl +:+ "* buckets" +:+ Js.nl +:+ "* docs" +:+ Js.nl |}.

Definition batch_result : ChangelogResult :=
  {| filePath := "packages/aws-batch/CHANGELOG.md";
     fileContents := "## 1.3.0-alpha.0" +:+ Js.nl +:+ "* queues" +:+ Js.nl |}.

Definition dated : RenderContext :=
  {| noteGroups := Some [{| title := "BREAKING CHANGES"; notes := ["renamed"] |}];
     date := Some "2021-03-01";
     otherFields := [] |}.

Definition packages : list PackageInfo := [stable_pkg; unstable_pkg].

Definition hanging_writer (ctx : WriterContext) (opts : WriterOpts string)
  (commits : list ConventionalCommit) : list (StreamEvent string) :=
  [OnData "## "; OnData (version ctx)].

(** Collaborators whose renderer never ends. *)
Definition hanging : Collaborators :=
  {| StreamErr := string;
     PresetWriterOpts := string;
     path_join := fun dir file => dir +:+ "/" +:+ file;
     trim := fun s => s;
     conventionalChangelogPresetLoader := fun name => name;
     conventionalChangelogWriter := hanging_writer |}.

Definition no_alpha : Versions := {| stableVersion := "1.3.0"; alphaVersion := None |}.
Definition empty_alpha : Versions := {| stableVersion := "1.3.0"; alphaVersion := Some EmptyString |}.

End Demo.


(** A run of [n] newlines. *)
Fixpoint newlines (n : nat) : string :=
  match n with
  | O => EmptyString
  | S n' => String Js.LF (newlines n')
  end.

(** A commit associated only with unstable packages: it names some package,
    and every name it carries is the name of an unstable package. *)
Definition only_unstable (packages : list PackageInfo) (c : ConventionalCommit) : Prop :=
  packageNames c <> []
  /\ forall n, In n (packageNames c) ->
       exists p, In p packages /\ unstable p = true /\ simplifiedName p = n.

(** The [stableCommits] of [writeChangelogs]. *)
Definition stableCommits_of (commits : list ConventionalCommit) (packages : list PackageInfo)
  : list ConventionalCommit :=
  filterCommits commits
    {| excludePackages := Some (List.map simplifiedName (List.filter unstable packages));
       includePackages := None |}.

(** *** The release pattern in words

    What [START_OF_LAST_RELEASE_PATTERN] is said to match: a markdown
    heading that carries a semantic version, or an anchor. *)
Module Release.

Definition LS : string := String "226" (String "128" (String "168" EmptyString)).
Definition PS : string := String "226" (String "128" (String "169" EmptyString)).

(** The text before an offset ends a line: there is none, or it ends with a
    line terminator. *)
Definition line_start (before : string) : Prop :=
  before = EmptyString
  \/ exists p t, before = p +:+ t
                 /\ (t = Js.nl \/ t = String Js.CR EmptyString \/ t = LS \/ t = PS).

Definition is_hash (c : ascii) : bool := Ascii.eqb c "#".

Definition hashes (h : string) : Prop := h <> EmptyString /\ Js.all_chars is_hash h = true.

Definition number (d : string) : Prop := d <> EmptyString /\ Js.all_chars Js.is_digit d = true.

(** One or more [#], a space, an optional bracket, then
    [major.minor.patch]. *)
Definition heading (m : string) : Prop :=
  exists h br major minor patch,
    m = h +:+ " " +:+ br +:+ major +:+ "." +:+ minor +:+ "." +:+ patch
    /\ hashes h /\ (br = EmptyString \/ br = "[")
    /\ number major /\ number minor /\ number patch.

(** The pattern matches the text [rest] that follows [before]. *)
Definition here (before rest : string) : Prop :=
  (line_start before /\ exists m tail, rest = m +:+ tail /\ heading m)
  \/ exists tail, rest = "<a name=" +:+ tail.

(** The pattern matches in [s] at offset [i]. *)
Definition matches_at (s : string) (i : nat) : Prop :=
  exists before rest, s = before +:+ rest /\ String.length before = i /\ here before rest.

(** The characters of a string, the last one first. *)
Definition backwards (s : string) : list ascii := rev (list_ascii_of_string s).

End Release.

(** *** Notions for the behaviour of the operations on the files *)

(** Between [w] and [w'] only the files at [paths] may have changed, and no
    file has gone. *)
Definition only_touches (paths : list string) (w w' : World) : Prop :=
  forall p : string,
    (p ∉ paths -> files w' !! p = files w !! p)
    /\ (is_Some (files w !! p) -> is_Some (files w' !! p)).

(** The changelog of an unstable package under the [separate] treatment. *)
Definition package_changelog {ext : Collaborators} (args : ChangelogOptions)
  (pkg : PackageInfo) : string :=
  path_join (location pkg) (changelogFile args).

(** [{ ...args, dryRun: flag }] *)
Definition with_dryRun (args : ChangelogOptions) (flag : option bool) : ChangelogOptions :=
  {| skip := skip args;
     changelogFile := changelogFile args;
     dryRun := flag;
     verbose := verbose args;
     silent := silent args;
     experimentalChangesTreatment := experimentalChangesTreatment args;
     changeLogHeader := changeLogHeader args;
     includeDateInChangelog := includeDateInChangelog args;
     releaseCommitMessageFormat := releaseCommitMessageFormat args |}.

(** A text without a line feed. *)
Definition one_line (s : string) : bool :=
  Js.all_chars (fun c => negb (Pattern.newline c)) s.

(** The stream only gives data: it neither ends nor fails. *)
Definition stalled {E : Type} (events : list (StreamEvent E)) : Prop :=
  exists chunks, events = List.map OnData chunks.

(** * Properties *)

(** ** Strings *)

Lemma append_empty_r (s : string) : s +:+ EmptyString = s.
Proof. induction s as [|c s IH]; simpl; [reflexivity | now rewrite IH]. Qed.

Lemma append_assoc (a b c : string) : (a +:+ b) +:+ c = a +:+ (b +:+ c).
Proof. induction a as [|x a IH]; simpl; [reflexivity | now rewrite IH]. Qed.

Lemma length_append (a b : string) :
  String.length (a +:+ b) = String.length a + String.length b.
Proof. induction a as [|x a IH]; simpl; [reflexivity | now rewrite IH]. Qed.

Lemma drop_append (a b : string) : Js.drop (String.length a) (a +:+ b) = b.
Proof. induction a as [|x a IH]; simpl; [now destruct b | exact IH]. Qed.

Lemma all_chars_append p (a b : string) :
  Js.all_chars p (a +:+ b) = Js.all_chars p a && Js.all_chars p b.
Proof.
  induction a as [|x a IH]; simpl; [reflexivity |].
  now rewrite IH, andb_assoc.
Qed.

Example search_unreleased :
  Pattern.search
    ("# Unreleased" +:+ Js.nl +:+ Js.nl +:+ "## [1.2.0] (2021-01-01)" +:+ Js.nl) = 14%Z.
Proof. reflexivity. Qed.

Example search_plain_version :
  Pattern.search ("intro" +:+ Js.nl +:+ "### 0.10.3" +:+ Js.nl) = 6%Z.
Proof. reflexivity. Qed.

Example search_anchor : Pattern.search "see <a name=x>" = 4%Z.
Proof. reflexivity. Qed.

Example search_heading_inside_a_line : Pattern.search "text ## [1.2.0]" = (-1)%Z.
Proof. reflexivity. Qed.

Example search_two_part_version : Pattern.search ("## [1.2]" +:+ Js.nl) = (-1)%Z.
Proof. reflexivity. Qed.

Example search_after_line_separator :
  Pattern.search ("a" +:+ Release.LS +:+ "# 1.0.0") = 4%Z.
Proof. reflexivity. Qed.

Example replace_trailing_newlines_run :
  Pattern.replace_trailing_newlines ("a" +:+ Js.nl +:+ "b" +:+ Js.nl +:+ Js.nl +:+ Js.nl)
  = "a" +:+ Js.nl +:+ "b" +:+ Js.nl.
Proof. reflexivity. Qed.

Example replace_trailing_newlines_none : Pattern.replace_trailing_newlines "abc" = "abc".
Proof. reflexivity. Qed.

Example replace_trailing_newlines_only :
  Pattern.replace_trailing_newlines (Js.nl +:+ Js.nl) = Js.nl.
Proof. reflexivity. Qed.

(** ** The world *)

Section WorldFacts.
Context {ext : Collaborators}.

Lemma createChangelogIfMissing_present args w :
  is_Some (files w !! changelogFile args) ->
  createChangelogIfMissing args w = record (ExistsSync (changelogFile args)) w.
Proof.
  intros H. unfold createChangelogIfMissing, existsSync.
  now rewrite bool_decide_eq_true_2.
Qed.

Lemma createChangelogIfMissing_dry args w :
  Js.truthy_bool (dryRun args) = true ->
  files (createChangelogIfMissing args w) = files w.
Proof.
  intros H. unfold createChangelogIfMissing, existsSync, writeFile.
  rewrite H. now destruct (bool_decide _).
Qed.

Lemma createChangelogIfMissing_exists args w :
  Js.truthy_bool (dryRun args) = false ->
  is_Some (files (createChangelogIfMissing args w) !! changelogFile args).
Proof.
  intros H. unfold createChangelogIfMissing, existsSync, writeFile.
  rewrite H. destruct (bool_decide _) eqn:E; simpl.
  - now apply bool_decide_eq_true_1 in E.
  - rewrite lookup_insert_eq. eauto.
Qed.

(** The synchronous part of [changelog] always finds something to read. *)
Lemma changelog_prefix_reads args w :
  exists oldContent, snd (changelog_prefix args w) = Some oldContent.
Proof.
  unfold changelog_prefix.
  destruct (Js.truthy_bool (dryRun args)) eqn:D.
  - simpl. eexists. reflexivity.
  - destruct (createChangelogIfMissing_exists args w D) as [old Hold].
    unfold readFileSync. rewrite Hold.
    destruct (negb _); eexists; reflexivity.
Qed.

End WorldFacts.

(** ** Rendering *)

Section RenderFacts.
Context {ext : Collaborators}.

Lemma settle_settle {A : Type} (a b : Promise StreamErr A) (p : Promise StreamErr A) :
  settle b (settle a p) = settle (settle b a) p.
Proof. now destruct p. Qed.

(** The handlers settle the promise the way [outcome_of] reads it off. *)
Lemma fold_handle_promise args oldContent events w c :
  promise (snd (fold_left (handle args oldContent) events (w, c)))
  = settle (outcome_of (content c) events) (promise c).
Proof.
  revert w c. induction events as [|ev events IH]; intros w c; simpl.
  - now destruct (promise c).
  - destruct ev as [buffer|err|]; simpl; rewrite IH; simpl.
    + reflexivity.
    + now destruct (promise c).
    + now destruct (promise c).
Qed.

Lemma changelog_render_outcome args currentVersion newVersion commits oldContent w :
  snd (changelog_render args currentVersion newVersion commits oldContent w)
  = outcome_of EmptyString (changelogStream args currentVersion newVersion commits).
Proof.
  unfold changelog_render.
  pose proof (fold_handle_promise args oldContent
                (changelogStream args currentVersion newVersion commits) w
                {| content := EmptyString; promise := Pending |}) as H.
  destruct (fold_left _ _ _) as [w' c]. simpl in *. exact H.
Qed.

(** Data events only collect text. *)
Lemma fold_handle_data args oldContent chunks rest w c :
  fold_left (handle args oldContent) (List.map OnData chunks ++ rest)%list (w, c)
  = fold_left (handle args oldContent) rest
      (w, {| content := content c +:+ Js.concat chunks; promise := promise c |}).
Proof.
  revert c. induction chunks as [|b chunks IH]; intros c; simpl.
  - rewrite append_empty_r. now destruct c.
  - rewrite IH. simpl. now rewrite append_assoc.
Qed.

(** Without an end signal the handlers leave the world alone. *)
Lemma fold_handle_no_end args oldContent events w c :
  ~ In OnEnd events ->
  fst (fold_left (handle args oldContent) events (w, c)) = w.
Proof.
  revert c. induction events as [|ev events IH]; intros c Hno; simpl; [reflexivity|].
  destruct ev as [buffer|err|]; simpl.
  - apply IH. intros H. apply Hno. now right.
  - apply IH. intros H. apply Hno. now right.
  - exfalso. apply Hno. now left.
Qed.

(** In a dry run the handlers only notify. *)
Lemma fold_handle_dry args oldContent events w c :
  Js.truthy_bool (dryRun args) = true ->
  let w' := fst (fold_left (handle args oldContent) events (w, c)) in
  files w' = files w
  /\ exists evs, trace w' = (trace w ++ evs)%list
                 /\ Forall (fun e => touches_content e = false) evs.
Proof.
  intros D. revert w c. induction events as [|ev events IH]; intros w c; simpl.
  - split; [reflexivity|]. exists []. split; [now rewrite app_nil_r | constructor].
  - destruct ev as [buffer|err|]; simpl; try apply IH.
    rewrite D.
    match goal with |- context [fold_left _ _ (?w1, ?c1)] =>
      destruct (IH w1 c1) as [Hf [evs [Ht Hall]]] end.
    split; [exact Hf|].
    eexists. split.
    + rewrite Ht. simpl. rewrite <- !app_assoc. reflexivity.
    + simpl. repeat constructor. exact Hall.
Qed.

Lemma outcome_of_data content chunks rest :
  outcome_of content (List.map OnData chunks ++ rest)%list
  = outcome_of (content +:+ Js.concat chunks) rest.
Proof.
  revert content. induction chunks as [|b chunks IH]; intros content; simpl.
  - now rewrite append_empty_r.
  - rewrite IH. now rewrite append_assoc.
Qed.

(** A render never fails with an [Error] of this module's making. *)
Lemma outcome_of_not_Error content events message :
  outcome_of content events <> Rejected (Error message).
Proof.
  revert content. induction events as [|ev events IH]; intros content; simpl.
  - discriminate.
  - destruct ev; [apply IH | discriminate | discriminate].
Qed.

Lemma changelog_unfold args currentVersion newVersion commits w :
  exists oldContent,
    changelog_prefix args w = (fst (changelog_prefix args w), Some oldContent)
    /\ changelog args currentVersion newVersion commits w
       = changelog_render args currentVersion newVersion commits oldContent
           (fst (changelog_prefix args w)).
Proof.
  destruct (changelog_prefix_reads args w) as [old Hold].
  exists old. unfold changelog, suspend, resume.
  destruct (changelog_prefix args w) as [w1 o]. simpl in *. subst o.
  split; reflexivity.
Qed.

Lemma changelog_outcome args currentVersion newVersion commits w :
  snd (changelog args currentVersion newVersion commits w)
  = outcome_of EmptyString (changelogStream args currentVersion newVersion commits).
Proof.
  destruct (changelog_unfold args currentVersion newVersion commits w) as [old [_ ->]].
  apply changelog_render_outcome.
Qed.

(** Every call of [changelog] starts by asking whether the file exists, so a
    world that is left as it was has seen no call. *)
Lemma changelog_prefix_trace args w :
  exists evs, trace (fst (changelog_prefix args w))
              = (trace w ++ ExistsSync (changelogFile args) :: evs)%list.
Proof.
  unfold changelog_prefix, createChangelogIfMissing, existsSync, writeFile, notify,
    readFileSync, writeFileSync, record.
  destruct (bool_decide _), (Js.truthy_bool (dryRun args)); simpl;
    repeat match goal with
           | |- context [match ?o with Some _ => _ | None => _ end] => destruct o; simpl
           | |- context [if ?b then _ else _] => destruct b; simpl
           end;
    rewrite <- ?app_assoc; simpl; eexists; reflexivity.
Qed.

End RenderFacts.

(** ** Dispatch of [writeChangelogs] *)

Section Dispatch.
Context {ext : Collaborators}.

Lemma resume_suspend_outcome args currentVersion newVersion commits w w' :
  snd (resume (snd (suspend args currentVersion newVersion commits w)) w')
  = outcome_of EmptyString (changelogStream args currentVersion newVersion commits).
Proof.
  unfold suspend, resume.
  destruct (changelog_prefix_reads args w) as [old Hold].
  destruct (changelog_prefix args w) as [w1 o]. simpl in *. subst o.
  apply changelog_render_outcome.
Qed.

Lemma then_return_not_Error {B : Type} (f : string -> B) content events message :
  then_return f (outcome_of content events) <> Rejected (Error message).
Proof.
  intros H. destruct (outcome_of content events) eqn:E; try discriminate.
  simpl in H. injection H as ->. now apply outcome_of_not_Error in E.
Qed.

Lemma separate_result order args currentVersion newVersion stableCommits commits
  unstablePackages w :
  Js.truthy_string (alphaVersion currentVersion) = true ->
  Js.truthy_string (alphaVersion newVersion) = true ->
  exists changelogResults,
    snd (separate order args currentVersion newVersion stableCommits commits
           unstablePackages w)
    = then_return
        (fun contents =>
           (changelogResults
            ++ [{| filePath := changelogFile args; fileContents := contents |}])%list)
        (outcome_of EmptyString
           (changelogStream args (stableVersion currentVersion) (stableVersion newVersion)
              stableCommits)).
Proof.
  intros Hc Hn. unfold separate. rewrite Hc, Hn. simpl.
  destruct (forEach_start _ _ _ _ _ _) as [w1 calls].
  pose proof (fun w' => resume_suspend_outcome args (stableVersion currentVersion)
                          (stableVersion newVersion) stableCommits w1 w') as Hres.
  destruct (suspend _ _ _ _ _) as [w2 stable]. simpl in Hres.
  destruct (complete_in_order _ _ _) as [w3 results].
  specialize (Hres w3). destruct (resume stable w3) as [w4 p]. simpl in *. subst p.
  exists results. reflexivity.
Qed.

(** [changelog] does not look at the treatment. *)
Lemma changelog_with_treatment args t currentVersion newVersion commits w :
  changelog (with_treatment args t) currentVersion newVersion commits w
  = changelog args currentVersion newVersion commits w.
Proof.
  unfold changelog, suspend, resume.
  change (changelog_prefix (with_treatment args t) w) with (changelog_prefix args w).
  destruct (changelog_prefix args w) as [w1 [old|]]; simpl; reflexivity.
Qed.

(** X15: a treatment that is present and is none of [include], [strip] and
    [separate] makes [writeChangelogs] fail, when [skip.changelog] is not
    set, with the message [unsupported experimentalChanges type: ] followed
    by the value; nothing is rendered and the world is left as it was. *)
Lemma unsupported_treatment order args currentVersion newVersion commits packages w t :
  Js.truthy_bool (skip args ≫= LifecyclesSkip.changelog) = false ->
  experimentalChangesTreatment args = Some t ->
  t <> "include" -> t <> "strip" -> t <> "separate" ->
  writeChangelogs order args currentVersion newVersion commits packages w
  = (w, Rejected (Error ("unsupported experimentalChanges type: " +:+ t))).
Proof.
  intros Hs Ht H1 H2 H3. unfold writeChangelogs. rewrite Hs, Ht. simpl.
  apply String.eqb_neq in H1, H2, H3. now rewrite H1, H2, H3.
Qed.

(** C8: with [skip.changelog] set, [writeChangelogs] returns the empty
    sequence whatever the other inputs are (treatment, versions, commits,
    packages, schedule), and leaves the world as it was: no file is looked
    up, read or written, nothing is notified, and nothing is raised. *)
Theorem C8_skip_changelog order args currentVersion newVersion commits packages w :
  skip args ≫= LifecyclesSkip.changelog = Some true ->
  writeChangelogs order args currentVersion newVersion commits packages w = (w, Resolved []).
Proof.
  intros H. unfold writeChangelogs. now rewrite H.
Qed.

(** C4 (amended): under the [separate] treatment, with [skip.changelog] not
    set, a missing alpha version of the current or of the new release makes
    [writeChangelogs] fail before its first [await], with the message
    [unable to create "separate" changelogs without alpha package versions]
    (the word separate in double quotes), and the world is left as it was:
    no render was started and no file was looked up, read or written. *)
Theorem C4_separate_needs_alpha order args currentVersion newVersion commits packages w :
  Js.truthy_bool (skip args ≫= LifecyclesSkip.changelog) = false ->
  experimentalChangesTreatment args = Some "separate" ->
  alphaVersion currentVersion = None \/ alphaVersion newVersion = None ->
  writeChangelogs order args currentVersion newVersion commits packages w
  = (w, Rejected (Error ("unable to create " +:+ Js.dq +:+ "separate" +:+ Js.dq
                         +:+ " changelogs without alpha package versions"))).
Proof.
  intros Hs Ht Halpha. unfold writeChangelogs. rewrite Hs, Ht. simpl.
  unfold separate.
  destruct Halpha as [-> | ->]; simpl; [reflexivity|].
  now rewrite orb_true_r.
Qed.

(** C10: an absent treatment is the [include] treatment.  The call gives
    what it gives with the treatment set to [include]; when [skip.changelog]
    is not set, that is one render of the full commit list against the
    stable version pair and a single result at [args.changelogFile]; and the
    error for an unsupported treatment comes only from a treatment that is
    present and is none of [include], [strip] and [separate]. *)
Theorem C10_absent_treatment_is_include
  order args currentVersion newVersion commits packages w :
  (experimentalChangesTreatment args = None ->
   writeChangelogs order args currentVersion newVersion commits packages w
   = writeChangelogs order (with_treatment args (Some "include"))
       currentVersion newVersion commits packages w)
  /\ (experimentalChangesTreatment args = None ->
      Js.truthy_bool (skip args ≫= LifecyclesSkip.changelog) = false ->
      writeChangelogs order args currentVersion newVersion commits packages w
      = (fst (changelog args (stableVersion currentVersion) (stableVersion newVersion)
                commits w),
         single_result args
           (outcome_of EmptyString
              (changelogStream args (stableVersion currentVersion)
                 (stableVersion newVersion) commits))))
  /\ (forall value : string,
        snd (writeChangelogs order args currentVersion newVersion commits packages w)
        = Rejected (Error ("unsupported experimentalChanges type: " +:+ value)) ->
        experimentalChangesTreatment args = Some value
        /\ value <> "include" /\ value <> "strip" /\ value <> "separate").
Proof.
  split; [|split].
  - intros Ht. unfold writeChangelogs. rewrite Ht. simpl.
    now rewrite changelog_with_treatment.
  - intros Ht Hs. unfold writeChangelogs. rewrite Hs, Ht. simpl.
    pose proof (changelog_outcome args (stableVersion currentVersion)
                  (stableVersion newVersion) commits w) as Ho.
    destruct (changelog _ _ _ _ _) as [w1 p]. simpl in *. now subst p.
  - intros value. unfold writeChangelogs.
    destruct (Js.truthy_bool _); [discriminate|].
    destruct (experimentalChangesTreatment args) as [t|] eqn:Ht; simpl.
    + destruct (String.eqb t "include") eqn:E1.
      { pose proof (changelog_outcome args (stableVersion currentVersion)
                      (stableVersion newVersion) commits w) as Ho.
        destruct (changelog _ _ _ _ _) as [w1 p]. simpl in *. subst p.
        intros H. now apply then_return_not_Error in H. }
      destruct (String.eqb t "strip") eqn:E2.
      { match goal with |- context [changelog ?a ?b ?c ?d ?e] =>
          pose proof (changelog_outcome a b c d e) as Ho;
          destruct (changelog a b c d e) as [w1 p] end.
        simpl in *. subst p.
        intros H. now apply then_return_not_Error in H. }
      destruct (String.eqb t "separate") eqn:E3.
      { unfold separate.
        destruct (negb _ || negb _) eqn:G.
        - simpl. intros H. exfalso. injection H as H. discriminate H.
        - apply orb_false_elim in G as [G1 G2].
          apply negb_false_iff in G1, G2.
          match goal with |- context [forEach_start ?a ?b ?c ?d ?e ?f] =>
            destruct (forEach_start a b c d e f) as [w1 calls] end.
          match goal with |- context [suspend ?a ?b ?c ?d ?e] =>
            pose proof (fun w' => resume_suspend_outcome a b c d e w') as Hres;
            destruct (suspend a b c d e) as [w2 stable] end.
          simpl in Hres.
          destruct (complete_in_order _ _ _) as [w3 results].
          specialize (Hres w3). destruct (resume stable w3) as [w4 p].
          simpl in *. subst p.
          intros H. now apply then_return_not_Error in H. }
      simpl. intros H. injection H as H.
      apply String.eqb_neq in E1, E2, E3. now subst.
    + pose proof (changelog_outcome args (stableVersion currentVersion)
                    (stableVersion newVersion) commits w) as Ho.
      destruct (changelog _ _ _ _ _) as [w1 p]. simpl in *. subst p.
      intros H. now apply then_return_not_Error in H.
Qed.

End Dispatch.

(** ** The [changelog] operation *)

Section Changelog.
Context {ext : Collaborators}.

Lemma retitle_breaking g :
  title g = "BREAKING CHANGES" ->
  title (retitle g) = "BREAKING CHANGES TO EXPERIMENTAL FEATURES" /\ notes (retitle g) = notes g.
Proof. intros H. unfold retitle. rewrite H. simpl. split; reflexivity. Qed.

Lemma retitle_other g : title g <> "BREAKING CHANGES" -> retitle g = g.
Proof. intros H. unfold retitle. apply String.eqb_neq in H. now rewrite H. Qed.

(** C7: the hook given to the writer is [finalizeContext] on every call of
    [changelog], whatever the options.  On a render context it retitles
    each note group named BREAKING CHANGES to BREAKING CHANGES TO
    EXPERIMENTAL FEATURES, leaves the other groups (and the notes of every
    group) as they are, and clears the date exactly when
    [includeDateInChangelog] is [false]; the finalized context is then the
    same whatever date the writer had put, so no text rendered from it shows
    the current date. *)
Theorem C7_finalizeContext args :
  (forall currentVersion newVersion commits,
     changelogStream args currentVersion newVersion commits
     = conventionalChangelogWriter (context currentVersion newVersion)
         {| presetOpts :=
              conventionalChangelogPresetLoader "conventional-changelog-conventionalcommits";
            finalizeContext := changelog_finalizeContext args |}
         commits)
  /\ (forall ctx,
        (noteGroups ctx = None -> noteGroups (changelog_finalizeContext args ctx) = None)
        /\ (forall groups, noteGroups ctx = Some groups ->
              exists groups',
                noteGroups (changelog_finalizeContext args ctx) = Some groups'
                /\ length groups' = length groups
                /\ forall i g, groups !! i = Some g ->
                     exists g', groups' !! i = Some g'
                       /\ notes g' = notes g
                       /\ (title g = "BREAKING CHANGES" ->
                           title g' = "BREAKING CHANGES TO EXPERIMENTAL FEATURES")
                       /\ (title g <> "BREAKING CHANGES" -> g' = g))
        /\ (includeDateInChangelog args = Some false ->
            date (changelog_finalizeContext args ctx) = None)
        /\ (includeDateInChangelog args <> Some false ->
            date (changelog_finalizeContext args ctx) = date ctx)
        /\ otherFields (changelog_finalizeContext args ctx) = otherFields ctx)
  /\ (includeDateInChangelog args = Some false ->
      forall groups other today anyday,
        changelog_finalizeContext args
          {| noteGroups := groups; date := today; otherFields := other |}
        = changelog_finalizeContext args
            {| noteGroups := groups; date := anyday; otherFields := other |}).
Proof.
  split; [|split].
  - reflexivity.
  - intros ctx. repeat split.
    + intros H. simpl. now rewrite H.
    + intros groups H. exists (List.map retitle groups). simpl. rewrite H. simpl.
      split; [reflexivity|]. split; [apply length_map|].
      intros i g Hg. exists (retitle g). split.
      * rewrite list_lookup_fmap_Some. eauto.
      * split; [unfold retitle; now destruct (String.eqb _ _)|].
        split; [intros Ht; now apply retitle_breaking | apply retitle_other].
    + intros H. simpl. now rewrite H.
    + intros H. simpl. destruct (includeDateInChangelog args) as [[|]|]; congruence.
  - intros H groups other today anyday. unfold changelog_finalizeContext. simpl.
    now rewrite H.
Qed.

(** C6: in a dry run [changelog] leaves every file as it was, found or not:
    nothing is read and nothing is written (the world only sees the
    existence check and notifications), the old content is taken to be
    empty, and the promise settles on what the stream gives alone: for a
    stream of chunks closed by its end signal, the rendered text. *)
Theorem C6_dry_run args currentVersion newVersion commits w :
  dryRun args = Some true ->
  files (fst (changelog args currentVersion newVersion commits w)) = files w
  /\ (exists evs,
        trace (fst (changelog args currentVersion newVersion commits w))
        = (trace w ++ evs)%list
        /\ Forall (fun e => touches_content e = false) evs)
  /\ snd (changelog_prefix args w) = Some EmptyString
  /\ snd (changelog args currentVersion newVersion commits w)
     = outcome_of EmptyString (changelogStream args currentVersion newVersion commits)
  /\ (forall chunks,
        changelogStream args currentVersion newVersion commits
        = (List.map OnData chunks ++ [OnEnd])%list ->
        snd (changelog args currentVersion newVersion commits w)
        = Resolved (Js.concat chunks)).
Proof.
  intros D.
  assert (Dt : Js.truthy_bool (dryRun args) = true) by now rewrite D.
  assert (Hpre : changelog_prefix args w = (createChangelogIfMissing args w, Some EmptyString)).
  { unfold changelog_prefix. rewrite Dt. reflexivity. }
  assert (Hcreate : exists evs0,
             trace (createChangelogIfMissing args w) = (trace w ++ evs0)%list
             /\ Forall (fun e => touches_content e = false) evs0).
  { unfold createChangelogIfMissing, existsSync, writeFile. rewrite Dt.
    destruct (bool_decide _); simpl.
    - eexists. split; [reflexivity|]. repeat constructor.
    - eexists. split; [rewrite <- app_assoc; reflexivity|]. repeat constructor. }
  pose proof (changelog_outcome args currentVersion newVersion commits w) as Hout.
  unfold changelog, suspend, resume in *. rewrite Hpre in *. simpl in *.
  unfold changelog_render in *.
  pose proof (fold_handle_dry args EmptyString
                (changelogStream args currentVersion newVersion commits)
                (createChangelogIfMissing args w)
                {| content := EmptyString; promise := Pending |} Dt) as [Hf [evs [Ht Hall]]].
  destruct (fold_left _ _ _) as [w' c]. simpl in *.
  split; [rewrite Hf; now apply createChangelogIfMissing_dry|].
  split.
  { destruct Hcreate as [evs0 [Ht0 Hall0]].
    exists (evs0 ++ evs)%list. split.
    - rewrite Ht, Ht0. now rewrite app_assoc.
    - apply Forall_app. now split. }
  split; [reflexivity|].
  split; [exact Hout|].
  intros chunks Hs. rewrite Hout, Hs, outcome_of_data. reflexivity.
Qed.

(** C9: when the stream signals an error (after any number of chunks) and
    no end, [changelog] rejects with the very value the stream carried, and
    the world stays as the synchronous start of the call left it: the only
    write there can be is the creation of a missing file, one newline long;
    the merged content is never written. *)
Theorem C9_renderer_error args currentVersion newVersion commits w chunks err rest :
  changelogStream args currentVersion newVersion commits
  = (List.map OnData chunks ++ OnError err :: rest)%list ->
  ~ In OnEnd rest ->
  snd (changelog args currentVersion newVersion commits w) = Rejected (Emitted err)
  /\ fst (changelog args currentVersion newVersion commits w) = fst (changelog_prefix args w)
  /\ files (fst (changelog args currentVersion newVersion commits w))
     = files (createChangelogIfMissing args w)
  /\ (forall path text,
        In (WriteFileSync path text)
          (trace (fst (changelog args currentVersion newVersion commits w))) ->
        In (WriteFileSync path text) (trace w)
        \/ (path = changelogFile args /\ text = Js.nl /\ files w !! path = None)).
Proof.
  intros Hs Hno.
  assert (Hnoend : ~ In OnEnd (changelogStream args currentVersion newVersion commits)).
  { rewrite Hs. intros H. apply in_app_or in H as [H|H].
    - apply in_map_iff in H as [b [Hb _]]. discriminate.
    - destruct H as [H|H]; [discriminate | now apply Hno]. }
  split.
  { rewrite changelog_outcome, Hs, outcome_of_data. reflexivity. }
  destruct (changelog_unfold args currentVersion newVersion commits w) as [old [Hpre Hc]].
  assert (Hw : fst (changelog args currentVersion newVersion commits w)
               = fst (changelog_prefix args w)).
  { rewrite Hc. unfold changelog_render.
    pose proof (fold_handle_no_end args old _ (fst (changelog_prefix args w))
                  {| content := EmptyString; promise := Pending |} Hnoend) as Hf.
    destruct (fold_left _ _ _) as [w' c]. exact Hf. }
  split; [exact Hw|]. rewrite Hw. clear Hw Hc Hpre.
  unfold changelog_prefix, createChangelogIfMissing, existsSync, writeFile, notify,
    readFileSync, writeFileSync, record.
  destruct (bool_decide (is_Some (files w !! changelogFile args))) eqn:Ex;
    destruct (Js.truthy_bool (dryRun args)) eqn:D; simpl;
    repeat match goal with
           | |- context [match ?o with Some _ => _ | None => _ end] => destruct o; simpl
           | |- context [if ?b then _ else _] => destruct b; simpl
           end;
    (split; [reflexivity|]);
    intros path text Hin;
    repeat (apply in_app_or in Hin as [Hin|Hin]);
    simpl in Hin; try (left; exact Hin); try tauto;
    repeat (destruct Hin as [Hin|Hin]; try discriminate; try tauto);
    injection Hin as <- <-; right; repeat split;
    apply bool_decide_eq_false_1 in Ex; now apply eq_None_not_Some.
Qed.

End Changelog.

(** ** Trailing newlines *)

Lemma all_chars_newlines k : Js.all_chars Pattern.newline (newlines k) = true.
Proof. induction k as [|k IH]; simpl; [reflexivity | exact IH]. Qed.

Lemma all_newlines_run r :
  Js.all_chars Pattern.newline r = true -> r = newlines (String.length r).
Proof.
  induction r as [|c r IH]; simpl; [reflexivity|].
  intros H. apply andb_true_iff in H as [Hc Hr].
  unfold Pattern.newline in Hc. apply Ascii.eqb_eq in Hc. subst c.
  now rewrite <- IH.
Qed.

(** Every string is a body that does not end with a newline, followed by
    its trailing newlines. *)
Lemma trailing_newlines_split s :
  exists body, s = body +:+ newlines (trailing_newlines s) /\ trailing_newlines body = 0.
Proof.
  induction s as [|c r [body [Hr Hb]]]; simpl.
  - exists EmptyString. split; reflexivity.
  - destruct (Pattern.newline c && Js.all_chars Pattern.newline r) eqn:E.
    + exists EmptyString. apply andb_true_iff in E as [Hc Hall].
      unfold Pattern.newline in Hc. apply Ascii.eqb_eq in Hc. subst c.
      simpl. split; [now rewrite <- all_newlines_run | reflexivity].
    + exists (String c body). simpl. split; [now rewrite <- Hr|].
      assert (Hcond : Pattern.newline c && Js.all_chars Pattern.newline body = false).
      { rewrite Hr, all_chars_append, all_chars_newlines, andb_true_r in E. exact E. }
      now rewrite Hcond.
Qed.

Lemma trailing_zero_cons c b :
  trailing_newlines (String c b) = 0 ->
  Pattern.newline c && Js.all_chars Pattern.newline b = false /\ trailing_newlines b = 0.
Proof.
  simpl. destruct (Pattern.newline c && Js.all_chars Pattern.newline b); [discriminate|].
  now split.
Qed.

Lemma length_newlines k : String.length (newlines k) = k.
Proof. induction k as [|k IH]; simpl; [reflexivity | now rewrite IH]. Qed.

Lemma trailing_newlines_run k : trailing_newlines (newlines k) = k.
Proof.
  destruct k as [|k]; [reflexivity|].
  cbn [newlines trailing_newlines].
  change (Pattern.newline Js.LF) with true.
  now rewrite all_chars_newlines, length_newlines.
Qed.

Lemma trailing_newlines_body body k :
  trailing_newlines body = 0 -> trailing_newlines (body +:+ newlines k) = k.
Proof.
  induction body as [|c b IH]; intros H.
  - apply trailing_newlines_run.
  - apply trailing_zero_cons in H as [Hc Hb]. simpl.
    rewrite all_chars_append, all_chars_newlines, andb_true_r, Hc. now apply IH.
Qed.

Lemma replace_trailing_newlines_body body k :
  trailing_newlines body = 0 ->
  Pattern.replace_trailing_newlines (body +:+ newlines k) = body +:+ newlines (Nat.min 1 k).
Proof.
  induction body as [|c b IH]; intros H.
  - simpl. destruct k as [|k]; [reflexivity|].
    simpl. unfold Pattern.newline at 1.
    replace (Ascii.eqb Js.LF Js.LF) with true by reflexivity.
    rewrite all_chars_newlines. reflexivity.
  - apply trailing_zero_cons in H as [Hc Hb]. simpl.
    rewrite all_chars_append, all_chars_newlines, andb_true_r, Hc.
    now rewrite IH.
Qed.

Lemma replace_trailing_newlines_idempotent s :
  Pattern.replace_trailing_newlines (Pattern.replace_trailing_newlines s)
  = Pattern.replace_trailing_newlines s.
Proof.
  destruct (trailing_newlines_split s) as [body [Hs Hb]].
  rewrite Hs, !replace_trailing_newlines_body by assumption.
  f_equal. f_equal. lia.
Qed.

Lemma body_not_all_newlines body :
  trailing_newlines body = 0 -> body <> EmptyString ->
  Js.all_chars Pattern.newline body = false.
Proof.
  induction body as [|c b IH]; intros H Hne; [congruence|].
  apply trailing_zero_cons in H as [Hc Hb]. simpl.
  destruct (Pattern.newline c); [|reflexivity]. simpl in *. exact Hc.
Qed.

Lemma trailing_newlines_after a b :
  Js.all_chars Pattern.newline b = false ->
  trailing_newlines (a +:+ b) = trailing_newlines b.
Proof.
  intros H. induction a as [|c a IH]; simpl; [reflexivity|].
  now rewrite all_chars_append, H, andb_false_r, andb_false_r.
Qed.

Lemma newlines_add a b : newlines (a + b) = newlines a +:+ newlines b.
Proof. induction a as [|a IH]; simpl; [reflexivity | now rewrite IH]. Qed.

(** The newlines that follow a text add to those it ends with. *)
Lemma trailing_newlines_append_run a k :
  trailing_newlines (a +:+ newlines k) = trailing_newlines a + k.
Proof.
  destruct (trailing_newlines_split a) as [body [Ha Hb]].
  rewrite Ha at 1. rewrite append_assoc, <- newlines_add.
  now apply trailing_newlines_body.
Qed.

Lemma trailing_newlines_written header body k :
  trailing_newlines body = 0 -> body <> EmptyString ->
  trailing_newlines (header +:+ String Js.LF (body +:+ newlines k)) = k.
Proof.
  intros Hb Hne.
  replace (header +:+ String Js.LF (body +:+ newlines k))
    with ((header +:+ Js.nl) +:+ (body +:+ newlines k))
    by (rewrite append_assoc; reflexivity).
  rewrite trailing_newlines_after.
  - now apply trailing_newlines_body.
  - rewrite all_chars_append. now rewrite body_not_all_newlines.
Qed.

Section MergedWrite.
Context {ext : Collaborators}.

(** What a call that is not a dry run does on a stream of chunks closed by
    the end signal: one notification, one write of the merged text. *)
Lemma changelog_render_success args currentVersion newVersion commits oldContent w chunks :
  Js.truthy_bool (dryRun args) = false ->
  changelogStream args currentVersion newVersion commits
  = (List.map OnData chunks ++ [OnEnd])%list ->
  changelog_render args currentVersion newVersion commits oldContent w
  = (writeFileSync (changelogFile args)
       (Js.to_string (changeLogHeader args) +:+ Js.nl
        +:+ Pattern.replace_trailing_newlines (Js.concat chunks +:+ oldContent))
       (notify args "outputting changes to %s" [changelogFile args] w),
     Resolved (Js.concat chunks)).
Proof.
  intros D Hs. unfold changelog_render. rewrite Hs, fold_handle_data. simpl.
  unfold writeFile. rewrite D. reflexivity.
Qed.

(** C3 (amended): a call of [changelog] that is not a dry run and whose
    stream gives chunks and then its end signal writes to the target file
    exactly [changeLogHeader + LF + (renderedText + oldContent)] with the run
    of newlines that ends the concatenation collapsed to one, and resolves
    with the rendered text alone.  The collapsed concatenation ends with one
    newline when the concatenation ended with one or more and is unchanged
    otherwise (no newline is added).  So, when the concatenation holds a
    character other than a newline ([body] is not empty), the file ends with
    exactly one newline if the concatenation ends with a newline and with
    none if it does not; when the concatenation is empty or holds only
    newlines, the file is the header and its newline, followed by one more
    newline if the concatenation is not empty, and ends with the newlines of
    the header plus these one or two.  Collapsing is idempotent. *)
Theorem C3_merged_write args currentVersion newVersion commits w chunks :
  Js.truthy_bool (dryRun args) = false ->
  changelogStream args currentVersion newVersion commits
  = (List.map OnData chunks ++ [OnEnd])%list ->
  exists oldContent body written,
    snd (changelog_prefix args w) = Some oldContent
    /\ Js.concat chunks +:+ oldContent
       = body +:+ newlines (trailing_newlines (Js.concat chunks +:+ oldContent))
    /\ trailing_newlines body = 0
    /\ written
       = Js.to_string (changeLogHeader args) +:+ Js.nl
         +:+ Pattern.replace_trailing_newlines (Js.concat chunks +:+ oldContent)
    /\ Pattern.replace_trailing_newlines (Js.concat chunks +:+ oldContent)
       = body +:+ newlines (Nat.min 1 (trailing_newlines (Js.concat chunks +:+ oldContent)))
    /\ snd (changelog args currentVersion newVersion commits w) = Resolved (Js.concat chunks)
    /\ files (fst (changelog args currentVersion newVersion commits w))
       = <[changelogFile args := written]> (files (fst (changelog_prefix args w)))
    /\ (body <> EmptyString ->
        trailing_newlines written
        = Nat.min 1 (trailing_newlines (Js.concat chunks +:+ oldContent)))
    /\ (body = EmptyString ->
        written
        = Js.to_string (changeLogHeader args) +:+ Js.nl
          +:+ newlines (Nat.min 1 (String.length (Js.concat chunks +:+ oldContent)))
        /\ trailing_newlines written
           = trailing_newlines (Js.to_string (changeLogHeader args)) + 1
             + Nat.min 1 (String.length (Js.concat chunks +:+ oldContent)))
    /\ (forall s, Pattern.replace_trailing_newlines (Pattern.replace_trailing_newlines s)
                  = Pattern.replace_trailing_newlines s).
Proof.
  intros D Hs.
  destruct (changelog_unfold args currentVersion newVersion commits w) as [old [Hpre Hc]].
  destruct (trailing_newlines_split (Js.concat chunks +:+ old)) as [body [Hsplit Hbody]].
  exists old, body. eexists. split; [now rewrite Hpre|].
  split; [exact Hsplit|]. split; [exact Hbody|]. split; [reflexivity|].
  assert (Hrep : Pattern.replace_trailing_newlines (Js.concat chunks +:+ old)
                 = body +:+ newlines (Nat.min 1 (trailing_newlines (Js.concat chunks +:+ old)))).
  { rewrite Hsplit at 1. now apply replace_trailing_newlines_body. }
  split; [exact Hrep|].
  rewrite Hc, (changelog_render_success _ _ _ _ _ _ chunks D Hs). simpl.
  split; [reflexivity|]. split; [reflexivity|]. split.
  - intros Hne. rewrite Hrep.
    rewrite (trailing_newlines_written _ _ _ Hbody Hne).
    now destruct (trailing_newlines (Js.concat chunks +:+ old)).
  - split.
    + intros Hempty. subst body.
      assert (Hlen : trailing_newlines (Js.concat chunks +:+ old)
                     = String.length (Js.concat chunks +:+ old)).
      { rewrite Hsplit at 2. simpl. now rewrite length_newlines. }
      rewrite Hrep, Hlen.
      change (String Js.LF
                (EmptyString
                 +:+ newlines (Nat.min 1 (String.length (Js.concat chunks +:+ old)))))
        with (newlines (S (Nat.min 1 (String.length (Js.concat chunks +:+ old))))).
      split; [reflexivity|].
      rewrite trailing_newlines_append_run.
      destruct (String.length (Js.concat chunks +:+ old)); simpl; lia.
    + apply replace_trailing_newlines_idempotent.
Qed.

End MergedWrite.

(** ** Stable and unstable commits *)

Lemma named_in_In names n : named_in names n = true <-> In n names.
Proof.
  unfold named_in. rewrite existsb_exists. split.
  - intros [x [Hx He]]. apply String.eqb_eq in He. now subst.
  - intros H. exists n. split; [exact H | apply String.eqb_refl].
Qed.

Lemma unstable_name packages n :
  In n (List.map simplifiedName (List.filter unstable packages))
  <-> exists p, In p packages /\ unstable p = true /\ simplifiedName p = n.
Proof.
  rewrite in_map_iff. split.
  - intros [p [Hn Hp]]. apply filter_In in Hp as [Hp Hu]. eauto.
  - intros [p [Hp [Hu Hn]]]. exists p. split; [exact Hn|]. apply filter_In. now split.
Qed.

Lemma associated_only_with_unstable packages c :
  associated_only_with (List.map simplifiedName (List.filter unstable packages)) c = true
  <-> only_unstable packages c.
Proof.
  unfold associated_only_with, only_unstable.
  destruct (packageNames c) as [|n0 ns] eqn:E.
  - split; [discriminate | intros [H _]; congruence].
  - rewrite forallb_forall. split.
    + intros H. split; [discriminate|].
      intros n Hn. apply unstable_name, named_in_In, H, Hn.
    + intros [_ H] n Hn. apply named_in_In, unstable_name, H, Hn.
Qed.

(** For a commit that carries at most one package name, being associated
    only with the names and being associated with one of them are the
    same. *)
Lemma associated_only_with_single names c :
  length (packageNames c) <= 1 ->
  associated_only_with names c = associated_with names c.
Proof.
  unfold associated_only_with, associated_with.
  destruct (packageNames c) as [|n [|n' ns]]; simpl; intros H.
  - reflexivity.
  - now rewrite andb_true_r, orb_false_r.
  - lia.
Qed.

Example filterCommits_exclude :
  filterCommits Demo.commits
    {| excludePackages := Some ["aws-batch"]; includePackages := None |}
  = [Demo.feat "buckets" ["aws-s3"]; Demo.feat "docs" []].
Proof. reflexivity. Qed.

Example filterCommits_include :
  filterCommits Demo.commits
    {| excludePackages := None; includePackages := Some ["aws-batch"] |}
  = [Demo.feat "queues" ["aws-batch"]].
Proof. reflexivity. Qed.

Section StableCommits.
Context {ext : Collaborators}.

(** C5: [stableCommits] holds the commits that are not associated only with
    unstable packages, in their order: a commit is dropped exactly when it
    names some package and each name it carries is that of an unstable
    package; a commit that names no package, or a package that is not
    unstable, is kept.  Under [strip] this list is what is rendered, under
    [include] the full list is, either way against the stable version pair
    and into a single result at [args.changelogFile]. *)
Theorem C5_stable_commits order args currentVersion newVersion commits packages w :
  Js.truthy_bool (skip args ≫= LifecyclesSkip.changelog) = false ->
  (forall c, In c (stableCommits_of commits packages)
             <-> In c commits /\ ~ only_unstable packages c)
  /\ (forall c, In c commits -> packageNames c = [] -> In c (stableCommits_of commits packages))
  /\ (forall c n, In c commits -> In n (packageNames c) ->
        (forall p, In p packages -> simplifiedName p = n -> unstable p = false) ->
        In c (stableCommits_of commits packages))
  /\ (experimentalChangesTreatment args = Some "strip" ->
      writeChangelogs order args currentVersion newVersion commits packages w
      = (fst (changelog args (stableVersion currentVersion) (stableVersion newVersion)
                (stableCommits_of commits packages) w),
         single_result args
           (outcome_of EmptyString
              (changelogStream args (stableVersion currentVersion)
                 (stableVersion newVersion) (stableCommits_of commits packages)))))
  /\ (experimentalChangesTreatment args = Some "include" ->
      writeChangelogs order args currentVersion newVersion commits packages w
      = (fst (changelog args (stableVersion currentVersion) (stableVersion newVersion)
                commits w),
         single_result args
           (outcome_of EmptyString
              (changelogStream args (stableVersion currentVersion)
                 (stableVersion newVersion) commits)))).
Proof.
  intros Hs.
  assert (Hiff : forall c, In c (stableCommits_of commits packages)
                           <-> In c commits /\ ~ only_unstable packages c).
  { intros c. unfold stableCommits_of, filterCommits. simpl.
    rewrite filter_In, negb_true_iff, <- associated_only_with_unstable.
    now rewrite not_true_iff_false. }
  split; [exact Hiff|]. split; [|split; [|split]].
  - intros c Hc Hn. apply Hiff. split; [exact Hc|]. intros [H _]. congruence.
  - intros c n Hc Hn Hst. apply Hiff. split; [exact Hc|].
    intros [_ H]. destruct (H n Hn) as [p [Hp [Hu Hname]]].
    rewrite (Hst p Hp Hname) in Hu. discriminate.
  - intros Ht. unfold writeChangelogs. rewrite Hs, Ht. simpl.
    fold (stableCommits_of commits packages).
    pose proof (changelog_outcome args (stableVersion currentVersion)
                  (stableVersion newVersion) (stableCommits_of commits packages) w) as Ho.
    destruct (changelog _ _ _ _ _) as [w1 p]. simpl in *. now subst p.
  - intros Ht. unfold writeChangelogs. rewrite Hs, Ht. simpl.
    pose proof (changelog_outcome args (stableVersion currentVersion)
                  (stableVersion newVersion) commits w) as Ho.
    destruct (changelog _ _ _ _ _) as [w1 p]. simpl in *. now subst p.
Qed.

End StableCommits.

(** ** The release pattern *)

Module ReleaseFacts.
Import Release.

Lemma backwards_snoc s c : backwards (s +:+ String c EmptyString) = c :: backwards s.
Proof.
  unfold backwards. induction s as [|x s IH]; simpl; [reflexivity|].
  rewrite IH. reflexivity.
Qed.

Lemma backwards_append a b : backwards (a +:+ b) = (backwards b ++ backwards a)%list.
Proof.
  unfold backwards. induction a as [|x a IH]; simpl.
  - now rewrite app_nil_r.
  - rewrite IH. now rewrite app_assoc.
Qed.

Lemma backwards_cons_inv s c l :
  backwards s = c :: l -> exists p, s = p +:+ String c EmptyString /\ backwards p = l.
Proof.
  revert c l. induction s as [|x s IH]; intros c l H; [discriminate|].
  destruct s as [|y s'].
  - unfold backwards in H. simpl in H. injection H as -> <-.
    exists EmptyString. split; reflexivity.
  - change (String x (String y s')) with (String x EmptyString +:+ String y s') in H.
    rewrite backwards_append in H.
    destruct (backwards (String y s')) as [|c' l'] eqn:E.
    + unfold backwards in E. simpl in E. now apply app_eq_nil in E as [_ E].
    + simpl in H. injection H as -> <-.
      destruct (IH c l' eq_refl) as [p [Hp Hl]].
      exists (String x p). split.
      * simpl. now rewrite <- Hp.
      * change (String x p) with (String x EmptyString +:+ p).
        rewrite backwards_append, Hl. reflexivity.
Qed.

Lemma at_line_start_spec before :
  Pattern.at_line_start (backwards before) = true <-> line_start before.
Proof.
  split.
  - intros H. destruct (backwards before) as [|c3 l] eqn:E.
    + left. destruct before as [|x b]; [reflexivity|].
      unfold backwards in E. simpl in E. now apply app_eq_nil in E as [_ E].
    + right. apply backwards_cons_inv in E as [p [-> Hl]].
      simpl in H.
      destruct (Ascii.eqb c3 Js.LF) eqn:E1.
      { apply Ascii.eqb_eq in E1. subst. exists p, Js.nl. split; [reflexivity | now left]. }
      destruct (Ascii.eqb c3 Js.CR) eqn:E2.
      { apply Ascii.eqb_eq in E2. subst. exists p, (String Js.CR EmptyString).
        split; [reflexivity | right; now left]. }
      simpl in H. destruct l as [|c2 [|c1 l']]; try discriminate.
      apply backwards_cons_inv in Hl as [p2 [-> Hl]].
      apply backwards_cons_inv in Hl as [p1 [-> _]].
      apply andb_true_iff in H as [H H3]. apply andb_true_iff in H as [H1 H2].
      apply Ascii.eqb_eq in H1, H2. subst c1 c2.
      exists p1. apply orb_true_iff in H3 as [H3|H3]; apply Ascii.eqb_eq in H3; subst c3.
      * exists LS. split; [now rewrite !append_assoc | right; right; now left].
      * exists PS. split; [now rewrite !append_assoc | right; right; now right].
  - intros [-> | [p [t [-> Ht]]]]; [reflexivity|].
    rewrite backwards_append.
    destruct Ht as [-> | [-> | [-> | ->]]]; reflexivity.
Qed.

Lemma skip_hashes_split s :
  exists h, s = h +:+ Pattern.skip_hashes s /\ Js.all_chars is_hash h = true.
Proof.
  induction s as [|c s [h [Hs Hh]]]; simpl.
  - exists EmptyString. split; reflexivity.
  - destruct (Ascii.eqb c "#") eqn:E.
    + exists (String c h). simpl. split; [now rewrite <- Hs|].
      unfold is_hash at 1. now rewrite E.
    + exists EmptyString. split; reflexivity.
Qed.

Lemma skip_hashes_run h c rest :
  Js.all_chars is_hash h = true -> Ascii.eqb c "#" = false ->
  Pattern.skip_hashes (h +:+ String c rest) = String c rest.
Proof.
  intros Hh Hc. induction h as [|x h IH]; simpl.
  - now rewrite Hc.
  - simpl in Hh. apply andb_true_iff in Hh as [Hx Hh].
    unfold is_hash in Hx. rewrite Hx. now apply IH.
Qed.

Lemma skip_digits_split s :
  exists d, s = d +:+ Pattern.skip_digits s /\ Js.all_chars Js.is_digit d = true.
Proof.
  induction s as [|c s [d [Hs Hd]]]; simpl.
  - exists EmptyString. split; reflexivity.
  - destruct (Js.is_digit c) eqn:E.
    + exists (String c d). simpl. split; [now rewrite <- Hs | now rewrite E].
    + exists EmptyString. split; reflexivity.
Qed.

Lemma digits1_split s t :
  Pattern.digits1 s = Some t -> exists d, s = d +:+ t /\ number d.
Proof.
  destruct s as [|c s]; simpl; [discriminate|].
  destruct (Js.is_digit c) eqn:E; [|discriminate].
  intros H. injection H as <-.
  destruct (skip_digits_split s) as [d [Hs Hd]].
  exists (String c d). split; [simpl; now rewrite <- Hs|].
  split; [discriminate | simpl; now rewrite E].
Qed.

Lemma skip_digits_run d c rest :
  Js.all_chars Js.is_digit d = true -> Js.is_digit c = false ->
  Pattern.skip_digits (d +:+ String c rest) = String c rest.
Proof.
  intros Hd Hc. induction d as [|x d IH]; simpl.
  - now rewrite Hc.
  - simpl in Hd. apply andb_true_iff in Hd as [Hx Hd]. rewrite Hx. now apply IH.
Qed.

Lemma digits1_run d c rest :
  number d -> Js.is_digit c = false ->
  Pattern.digits1 (d +:+ String c rest) = Some (String c rest).
Proof.
  intros [Hne Hd] Hc. destruct d as [|x d]; [congruence|].
  simpl in *. apply andb_true_iff in Hd as [Hx Hd]. rewrite Hx.
  now rewrite skip_digits_run.
Qed.

Lemma digits1_some d rest : number d -> exists t, Pattern.digits1 (d +:+ rest) = Some t.
Proof.
  intros [Hne Hd]. destruct d as [|x d]; [congruence|].
  simpl in *. apply andb_true_iff in Hd as [Hx Hd]. rewrite Hx. eauto.
Qed.

Lemma dot_split s t : Pattern.dot s = Some t -> s = "." +:+ t.
Proof.
  destruct s as [|c s]; simpl; [discriminate|].
  destruct (Ascii.eqb c ".") eqn:E; [|discriminate].
  apply Ascii.eqb_eq in E. subst. intros H. now injection H as <-.
Qed.

Lemma version_number_spec s :
  Pattern.version_number s = true
  <-> exists major minor patch tail,
        s = major +:+ "." +:+ minor +:+ "." +:+ patch +:+ tail
        /\ number major /\ number minor /\ number patch.
Proof.
  unfold Pattern.version_number. split.
  - destruct (Pattern.digits1 s) as [s1|] eqn:E1; [|discriminate].
    destruct (Pattern.dot s1) as [s2|] eqn:E2; [|discriminate].
    destruct (Pattern.digits1 s2) as [s3|] eqn:E3; [|discriminate].
    destruct (Pattern.dot s3) as [s4|] eqn:E4; [|discriminate].
    destruct (Pattern.digits1 s4) as [s5|] eqn:E5; [|discriminate].
    intros _.
    apply digits1_split in E1 as [major [-> Hmajor]].
    apply dot_split in E2 as ->.
    apply digits1_split in E3 as [minor [-> Hminor]].
    apply dot_split in E4 as ->.
    apply digits1_split in E5 as [patch [-> Hpatch]].
    exists major, minor, patch, s5.
    split; [reflexivity|]. split; [exact Hmajor|]. split; assumption.
  - intros [major [minor [patch [tail [-> [Hmajor [Hminor Hpatch]]]]]]].
    change ("." +:+ minor +:+ "." +:+ patch +:+ tail)
      with (String "." (minor +:+ "." +:+ patch +:+ tail)).
    rewrite (digits1_run major) by (assumption || reflexivity). simpl.
    change ("." +:+ patch +:+ tail) with (String "." (patch +:+ tail)).
    rewrite (digits1_run minor) by (assumption || reflexivity). simpl.
    destruct (digits1_some patch tail Hpatch) as [t ->]. reflexivity.
Qed.

(** Brings nested concatenations to the right-nested form. *)
Ltac reassociate := repeat (first [rewrite append_assoc | progress simpl]).

Lemma digit_not_bracket c : Js.is_digit c = true -> Ascii.eqb c "[" = false.
Proof.
  intros H. destruct (Ascii.eqb c "[") eqn:E; [|reflexivity].
  apply Ascii.eqb_eq in E. subst c. discriminate H.
Qed.

Lemma heading_spec s :
  Pattern.heading s = true <-> exists m tail, s = m +:+ tail /\ heading m.
Proof.
  split.
  - destruct s as [|c r]; simpl; [discriminate|].
    destruct (Ascii.eqb c "#") eqn:Ec; [|discriminate].
    apply Ascii.eqb_eq in Ec. subst c.
    destruct (skip_hashes_split r) as [h' [Hr Hh']].
    destruct (Pattern.skip_hashes r) as [|sp r1]; [discriminate|].
    destruct (Ascii.eqb sp " ") eqn:Esp; [|discriminate].
    apply Ascii.eqb_eq in Esp. subst sp.
    destruct r1 as [|br r2]; [discriminate|].
    assert (Hh : hashes (String "#" h')) by (split; [discriminate | exact Hh']).
    destruct (Ascii.eqb br "[") eqn:Ebr.
    + apply Ascii.eqb_eq in Ebr. subst br. intros Hv.
      apply version_number_spec in Hv
        as [major [minor [patch [tail [-> [Hmajor [Hminor Hpatch]]]]]]].
      exists (String "#" h' +:+ " " +:+ "[" +:+ major +:+ "." +:+ minor +:+ "." +:+ patch), tail.
      split.
      * rewrite Hr. reassociate. reflexivity.
      * exists (String "#" h'), "[", major, minor, patch.
        split; [reflexivity|]. split; [exact Hh|]. split; [now right|].
        split; [exact Hmajor|]. split; assumption.
    + intros Hv.
      apply version_number_spec in Hv
        as [major [minor [patch [tail [Hv [Hmajor [Hminor Hpatch]]]]]]].
      exists (String "#" h' +:+ " " +:+ "" +:+ major +:+ "." +:+ minor +:+ "." +:+ patch), tail.
      split.
      * rewrite Hr, Hv. reassociate. reflexivity.
      * exists (String "#" h'), EmptyString, major, minor, patch.
        split; [reflexivity|]. split; [exact Hh|]. split; [now left|].
        split; [exact Hmajor|]. split; assumption.
  - intros [m [tail [-> [h [br [major [minor [patch
             [-> [[Hne Hh] [Hbr [Hmajor [Hminor Hpatch]]]]]]]]]]]]].
    destruct h as [|x h']; [congruence|].
    simpl in Hh. apply andb_true_iff in Hh as [Hx Hh'].
    unfold is_hash in Hx. apply Ascii.eqb_eq in Hx. subst x.
    assert (Hv : Pattern.version_number
                   (major +:+ "." +:+ minor +:+ "." +:+ patch +:+ tail) = true).
    { apply version_number_spec. exists major, minor, patch, tail.
      split; [reflexivity|]. split; [exact Hmajor|]. split; assumption. }
    reassociate.
    rewrite skip_hashes_run by (assumption || reflexivity). simpl.
    destruct Hbr as [-> | ->]; simpl.
    + destruct Hmajor as [Hmne Hmd].
      destruct major as [|d major']; [congruence|].
      simpl in Hmd. apply andb_true_iff in Hmd as [Hd _].
      simpl. rewrite (digit_not_bracket d Hd). exact Hv.
    + exact Hv.
Qed.

Lemma prefix_spec a s : String.prefix a s = true <-> exists tail, s = a +:+ tail.
Proof.
  revert s. induction a as [|x a IH]; intros s.
  - split; [intros _; now exists s | now destruct s].
  - destruct s as [|y s]; simpl.
    + split; [discriminate | intros [tail H]; discriminate].
    + destruct (ascii_dec x y) as [->|Hne].
      * rewrite IH. split; intros [tail H]; exists tail; [now rewrite H | now injection H].
      * split; [discriminate | intros [tail H]; injection H as H _; congruence].
Qed.

Lemma pattern_spec before rest :
  Pattern.START_OF_LAST_RELEASE_PATTERN (backwards before) rest = true <-> here before rest.
Proof.
  unfold Pattern.START_OF_LAST_RELEASE_PATTERN, here.
  rewrite orb_true_iff, andb_true_iff, at_line_start_spec, heading_spec, prefix_spec.
  reflexivity.
Qed.

(** [search_from] finds the first offset at which the pattern matches. *)
Lemma search_from_spec s before pos :
  match Pattern.search_from (backwards before) pos s with
  | Some k =>
      exists a b, s = a +:+ b /\ k = pos + String.length a
        /\ here (before +:+ a) b
        /\ forall a' b', s = a' +:+ b' -> String.length a' < String.length a ->
              ~ here (before +:+ a') b'
  | None => forall a b, s = a +:+ b -> ~ here (before +:+ a) b
  end.
Proof.
  revert before pos. induction s as [|c r IH]; intros before pos; simpl.
  - intros a b H. destruct a; [|discriminate]. simpl in H. subst b.
    rewrite append_empty_r, <- pattern_spec.
    unfold Pattern.START_OF_LAST_RELEASE_PATTERN. simpl.
    rewrite andb_false_r. discriminate.
  - destruct (Pattern.START_OF_LAST_RELEASE_PATTERN (backwards before) (String c r)) eqn:E.
    + exists EmptyString, (String c r). split; [reflexivity|].
      split; [simpl; lia|]. split.
      * rewrite append_empty_r. now apply pattern_spec.
      * intros a' b' _ Hlt. simpl in Hlt. lia.
    + assert (Hhere : ~ here before (String c r)).
      { rewrite <- pattern_spec. now rewrite E. }
      specialize (IH (before +:+ String c EmptyString) (S pos)).
      rewrite backwards_snoc in IH.
      destruct (Pattern.search_from (c :: backwards before) (S pos) r) as [k|].
      * destruct IH as [a [b [-> [-> [Hh Hmin]]]]].
        exists (String c a), b. split; [reflexivity|]. split; [simpl; lia|].
        rewrite append_assoc in Hh. split; [exact Hh|].
        intros a' b' Heq Hlt. destruct a' as [|x a'].
        -- simpl in Heq. subst b'. now rewrite append_empty_r.
        -- simpl in Heq. injection Heq as <- Heq.
           specialize (Hmin a' b' Heq). rewrite append_assoc in Hmin.
           apply Hmin. simpl in Hlt. lia.
      * intros a b Heq. destruct a as [|x a].
        -- simpl in Heq. subst b. now rewrite append_empty_r.
        -- simpl in Heq. injection Heq as <- Heq.
           specialize (IH a b Heq). now rewrite append_assoc in IH.
Qed.

End ReleaseFacts.

Lemma search_cases s :
  (exists discarded kept,
      Pattern.search s = Z.of_nat (String.length discarded)
      /\ s = discarded +:+ kept
      /\ Release.here discarded kept
      /\ (forall j, j < String.length discarded -> ~ Release.matches_at s j)
      /\ Js.substring (Pattern.search s) s = kept)
  \/ (Pattern.search s = (-1)%Z /\ forall i, ~ Release.matches_at s i).
Proof.
  unfold Pattern.search.
  pose proof (ReleaseFacts.search_from_spec s EmptyString 0) as H.
  change (Release.backwards EmptyString) with (@nil ascii) in H.
  destruct (Pattern.search_from [] 0 s) as [k|].
  - left. destruct H as [a [b [-> [-> [Hh Hmin]]]]]. simpl in *.
    exists a, b. split; [reflexivity|]. split; [reflexivity|]. split; [exact Hh|].
    split.
    + intros j Hj [before [rest [Heq [Hlen Hhere]]]].
      apply (Hmin before rest Heq); [lia | exact Hhere].
    + unfold Js.substring. rewrite Nat2Z.id. apply drop_append.
  - right. split; [reflexivity|].
    intros i [before [rest [Heq [_ Hhere]]]]. now apply (H before rest Heq).
Qed.

Section SplitPoint.
Context {ext : Collaborators}.

Lemma changelog_prefix_existing args w content :
  Js.truthy_bool (dryRun args) = false ->
  files w !! changelogFile args = Some content ->
  snd (changelog_prefix args w)
  = Some (if negb (Pattern.search content =? -1)%Z
          then Js.substring (Pattern.search content) content
          else content).
Proof.
  intros D Hfile. unfold changelog_prefix. rewrite D.
  rewrite createChangelogIfMissing_present by (rewrite Hfile; eauto).
  unfold readFileSync. simpl. rewrite Hfile.
  now destruct (negb _).
Qed.

(** C2: [changelog] cuts the existing content at the first offset where the
    release pattern matches: a heading with a semantic version that starts a
    line, or an anchor.  The content from that offset on is the old content,
    and what comes before is dropped; without a match the whole content is
    the old content.  The old content is what the write appends to the
    rendered text.  For a file that begins with an Unreleased heading, an
    empty line and the heading of 1.2.0, the old content starts at that
    heading, whatever follows. *)
Theorem C2_split_point args currentVersion newVersion commits w content :
  Js.truthy_bool (dryRun args) = false ->
  files w !! changelogFile args = Some content ->
  ((exists discarded kept,
       content = discarded +:+ kept
       /\ Pattern.search content = Z.of_nat (String.length discarded)
       /\ Release.matches_at content (String.length discarded)
       /\ (forall j, j < String.length discarded -> ~ Release.matches_at content j)
       /\ snd (changelog_prefix args w) = Some kept)
   \/ ((forall i, ~ Release.matches_at content i)
       /\ Pattern.search content = (-1)%Z
       /\ snd (changelog_prefix args w) = Some content))
  /\ (forall chunks,
        changelogStream args currentVersion newVersion commits
        = (List.map OnData chunks ++ [OnEnd])%list ->
        exists oldContent,
          snd (changelog_prefix args w) = Some oldContent
          /\ files (fst (changelog args currentVersion newVersion commits w))
             !! changelogFile args
             = Some (Js.to_string (changeLogHeader args) +:+ Js.nl
                     +:+ Pattern.replace_trailing_newlines
                           (Js.concat chunks +:+ oldContent)))
  /\ (forall tail,
        content = "# Unreleased" +:+ Js.nl +:+ Js.nl +:+ "## [1.2.0]" +:+ tail ->
        snd (changelog_prefix args w) = Some ("## [1.2.0]" +:+ tail)).
Proof.
  intros D Hfile.
  pose proof (changelog_prefix_existing args w content D Hfile) as Hpre.
  split; [|split].
  - destruct (search_cases content) as [[discarded [kept [Hs [Hc [Hh [Hmin Hsub]]]]]] | [Hs Hno]].
    + left. exists discarded, kept. split; [exact Hc|]. split; [exact Hs|].
      split; [exists discarded, kept; now repeat split|]. split; [exact Hmin|].
      rewrite Hpre, Hsub.
      replace (Pattern.search content =? -1)%Z with false; [reflexivity|].
      symmetry. apply Z.eqb_neq. rewrite Hs. lia.
    + right. split; [exact Hno|]. split; [exact Hs|].
      rewrite Hpre, Hs. reflexivity.
  - intros chunks Hstream.
    destruct (changelog_unfold args currentVersion newVersion commits w) as [old [Hp Hc]].
    exists old. split; [now rewrite Hp|].
    rewrite Hc, (changelog_render_success _ _ _ _ _ _ chunks D Hstream). simpl.
    apply lookup_insert_eq.
  - intros tail ->. rewrite Hpre. reflexivity.
Qed.

End SplitPoint.

(** ** The [separate] treatment *)

Section Separate.
Context {ext : Collaborators}.

(** The callback starts one render per unstable package, in their order. *)
Lemma forEach_start_calls args currentAlpha newAlpha commits pkgs w :
  Forall2 (started_for args currentAlpha newAlpha commits) pkgs
    (snd (forEach_start args currentAlpha newAlpha commits pkgs w)).
Proof.
  revert w. induction pkgs as [|pkg pkgs IH]; intros w; simpl; [constructor|].
  unfold start_package, suspend.
  destruct (changelog_prefix_reads
              (with_changelogFile args (path_join (location pkg) (changelogFile args))) w)
    as [old Hold].
  destruct (changelog_prefix _ w) as [w1 o]. simpl in Hold. subst o.
  specialize (IH w1). destruct (forEach_start _ _ _ _ pkgs w1) as [w2 calls]. simpl in *.
  constructor; [|exact IH].
  repeat split; simpl; eauto.
Qed.

Lemma finish_package_result args currentAlpha newAlpha commits pkg call w results :
  started_for args currentAlpha newAlpha commits pkg call ->
  snd (finish_package call (w, results)) = results
  \/ exists r, snd (finish_package call (w, results)) = (results ++ [r])%list
               /\ package_result args currentAlpha newAlpha commits pkg r.
Proof.
  intros [Ha [Hc [Hn [Hcs [old Hold]]]]]. unfold finish_package, resume. rewrite Hold.
  pose proof (changelog_render_outcome (call_args call) (call_currentVersion call)
                (call_newVersion call) (call_commits call) old w) as Hout.
  destruct (changelog_render _ _ _ _ _ _) as [w1 p]. simpl in Hout.
  destruct p as [|contents|reason]; simpl; [now left | | now left].
  right. eexists. split; [reflexivity|].
  unfold package_result. simpl. rewrite Ha. simpl. split; [reflexivity|].
  rewrite <- Ha, <- Hc, <- Hn, <- Hcs. now symmetry.
Qed.

Lemma complete_in_order_cons i rest suspended st :
  complete_in_order (i :: rest) suspended st
  = match suspended !! i with
    | Some (Some call) =>
        complete_in_order rest (<[i := None]> suspended) (finish_package call st)
    | _ => complete_in_order rest suspended st
    end.
Proof. reflexivity. Qed.

(** Whatever the order, the results pushed are those of distinct packages,
    each taken from the order. *)
Lemma complete_in_order_results args currentAlpha newAlpha commits
  (pkgs : list PackageInfo) order :
  forall suspended w results done,
    (forall i call, suspended !! i = Some (Some call) ->
       exists pkg, pkgs !! i = Some pkg
                   /\ started_for args currentAlpha newAlpha commits pkg call) ->
    (forall i call, i ∈ done -> suspended !! i <> Some (Some call)) ->
    NoDup done ->
    Forall2 (fun i r => exists pkg, pkgs !! i = Some pkg
                          /\ package_result args currentAlpha newAlpha commits pkg r)
      done results ->
    exists done',
      NoDup done'
      /\ (forall i, i ∈ done' -> i ∈ done \/ i ∈ order)
      /\ Forall2 (fun i r => exists pkg, pkgs !! i = Some pkg
                               /\ package_result args currentAlpha newAlpha commits pkg r)
           done' (snd (complete_in_order order suspended (w, results))).
Proof.
  induction order as [|i order IH]; intros suspended w results done Hsusp Hdone Hnd Hres.
  - simpl. exists done. split; [exact Hnd|]. split; [now left | exact Hres].
  - rewrite complete_in_order_cons. destruct (suspended !! i) as [[call|]|] eqn:Ei.
    + destruct (Hsusp i call Ei) as [pkg [Hpkg Hstarted]].
      assert (Hfresh : i ∉ done).
      { intros Hin. exact (Hdone i call Hin Ei). }
      assert (Hsusp' : forall j c, <[i:=None]> suspended !! j = Some (Some c) ->
                 exists pkg, pkgs !! j = Some pkg
                             /\ started_for args currentAlpha newAlpha commits pkg c).
      { intros j c Hj. destruct (decide (i = j)) as [->|Hne].
        - rewrite list_lookup_insert_eq in Hj by (eapply lookup_lt_Some; eauto).
          discriminate.
        - rewrite list_lookup_insert_ne in Hj by assumption. eauto. }
      destruct (finish_package_result args currentAlpha newAlpha commits pkg call w results
                  Hstarted) as [Hsame | [r [Hpush Hr]]].
      * destruct (finish_package call (w, results)) as [w1 rs1]. simpl in Hsame. subst rs1.
        destruct (IH (<[i:=None]> suspended) w1 results done) as [done' [H1 [H2 H3]]];
          try assumption.
        { intros j c Hj. destruct (decide (i = j)) as [->|Hne].
          - contradiction.
          - rewrite list_lookup_insert_ne by assumption. now apply Hdone. }
        exists done'. split; [exact H1|]. split; [|exact H3].
        intros j Hj. destruct (H2 j Hj) as [?|?]; [now left | right; now right].
      * destruct (finish_package call (w, results)) as [w1 rs1]. simpl in Hpush. subst rs1.
        destruct (IH (<[i:=None]> suspended) w1 (results ++ [r])%list (done ++ [i])%list)
          as [done' [H1 [H2 H3]]].
        { exact Hsusp'. }
        { intros j c Hj. destruct (decide (i = j)) as [->|Hne].
          - rewrite list_lookup_insert_eq by (eapply lookup_lt_Some; eauto). discriminate.
          - rewrite list_lookup_insert_ne by assumption.
            apply elem_of_app in Hj as [Hj|Hj]; [now apply Hdone|].
            apply list_elem_of_singleton in Hj. congruence. }
        { apply NoDup_app. split; [exact Hnd|]. split; [|apply NoDup_singleton].
          intros j Hj Hj'. apply list_elem_of_singleton in Hj'. congruence. }
        { apply Forall2_app; [exact Hres|]. constructor; [|constructor]. eauto. }
        exists done'. split; [exact H1|]. split; [|exact H3].
        intros j Hj. destruct (H2 j Hj) as [Hj'|Hj'].
        -- apply elem_of_app in Hj' as [Hj'|Hj']; [now left|].
           apply list_elem_of_singleton in Hj'. subst j. right. now left.
        -- right. now right.
    + destruct (IH suspended w results done Hsusp Hdone Hnd Hres) as [done' [H1 [H2 H3]]].
      exists done'. split; [exact H1|]. split; [|exact H3].
      intros j Hj. destruct (H2 j Hj) as [?|?]; [now left | right; now right].
    + destruct (IH suspended w results done Hsusp Hdone Hnd Hres) as [done' [H1 [H2 H3]]].
      exists done'. split; [exact H1|]. split; [|exact H3].
      intros j Hj. destruct (H2 j Hj) as [?|?]; [now left | right; now right].
Qed.

Lemma finish_package_pushed call w results :
  is_Some (call_oldContent call) ->
  snd (finish_package call (w, results)) = (results ++ pushed call)%list.
Proof.
  intros [old Hold]. unfold finish_package, resume, pushed. rewrite Hold.
  pose proof (changelog_render_outcome (call_args call) (call_currentVersion call)
                (call_newVersion call) (call_commits call) old w) as Hout.
  destruct (changelog_render _ _ _ _ _ _) as [w1 p]. simpl in Hout. rewrite <- Hout.
  destruct p; simpl; [now rewrite app_nil_r | reflexivity | now rewrite app_nil_r].
Qed.

(** When the renders complete in the order of the packages, each of them
    pushes its result, in that order. *)
Lemma complete_in_package_order calls :
  Forall (fun call => is_Some (call_oldContent call)) calls ->
  forall (completed : list (option Suspended)) w results,
    snd (complete_in_order (seq (length completed) (length calls))
           (completed ++ (Some <$> calls))%list (w, results))
    = (results ++ mjoin (pushed <$> calls))%list.
Proof.
  induction 1 as [|call calls Hcall _ IH]; intros completed w results.
  - simpl. now rewrite app_nil_r.
  - cbn [length seq]. rewrite complete_in_order_cons.
    rewrite fmap_cons, list_lookup_middle by reflexivity.
    rewrite insert_app_r_alt by lia. rewrite Nat.sub_diag.
    pose proof (finish_package_pushed call w results Hcall) as Hpush.
    destruct (finish_package call (w, results)) as [w1 results1]. simpl in Hpush.
    subst results1.
    replace (S (length completed)) with (length (completed ++ [None])%list)
      by (rewrite length_app; simpl; lia).
    change (<[0:=None]> (Some call :: (Some <$> calls))) with (None :: (Some <$> calls)).
    rewrite (cons_middle None completed (Some <$> calls)), app_assoc.
    rewrite IH. simpl. now rewrite app_assoc.
Qed.

End Separate.

Section SeparateResults.
Context {ext : Collaborators}.

Lemma then_return_Resolved {A B : Type} (f : A -> B) (p : Promise StreamErr A) b :
  then_return f p = Resolved b -> exists a, p = Resolved a /\ b = f a.
Proof.
  destruct p as [|a|r]; simpl; try discriminate.
  intros H. injection H as <-. eauto.
Qed.

(** C1 (amended): under the [separate] treatment, with [skip.changelog] not
    set and both alpha versions defined and not empty, a call whose stable
    render resolves returns a sequence that ends with the result of the
    top-level changelog (at [args.changelogFile], rendered from
    [stableCommits] with the stable version pair); what precedes it are
    results of the per-package renders, each for a different unstable
    package named by the completion order: its path is the changelog file
    joined to the location of the package, its contents are rendered from
    the commits filtered to that package with the alpha version pair. *)
Theorem C1_separate_results
  order args currentVersion newVersion commits packages w currentAlpha newAlpha results :
  Js.truthy_bool (skip args ≫= LifecyclesSkip.changelog) = false ->
  experimentalChangesTreatment args = Some "separate" ->
  alphaVersion currentVersion = Some currentAlpha -> currentAlpha <> EmptyString ->
  alphaVersion newVersion = Some newAlpha -> newAlpha <> EmptyString ->
  snd (writeChangelogs order args currentVersion newVersion commits packages w)
  = Resolved results ->
  exists (done : list nat) pkgResults contents,
    results
    = (pkgResults ++ [{| filePath := changelogFile args; fileContents := contents |}])%list
    /\ outcome_of EmptyString
         (changelogStream args (stableVersion currentVersion) (stableVersion newVersion)
            (stableCommits_of commits packages))
       = Resolved contents
    /\ NoDup done
    /\ (forall i, i ∈ done -> i ∈ order)
    /\ Forall2
         (fun i r => exists pkg,
              List.filter unstable packages !! i = Some pkg
              /\ package_result args currentAlpha newAlpha commits pkg r)
         done pkgResults.
Proof.
  intros Hs Ht Hca Hcane Hna Hnane.
  unfold writeChangelogs. rewrite Hs, Ht. simpl.
  fold (stableCommits_of commits packages).
  unfold separate. rewrite Hca, Hna.
  destruct currentAlpha as [|c1 ca]; [congruence|].
  destruct newAlpha as [|c2 na]; [congruence|]. simpl.
  pose proof (forEach_start_calls args (String c1 ca) (String c2 na) commits
                (List.filter unstable packages) w) as Hcalls.
  destruct (forEach_start _ _ _ _ _ w) as [w1 calls]. simpl in Hcalls.
  pose proof (fun w' => resume_suspend_outcome args (stableVersion currentVersion)
                          (stableVersion newVersion) (stableCommits_of commits packages)
                          w1 w') as Hres.
  destruct (suspend _ _ _ _ w1) as [w2 stable]. simpl in Hres.
  destruct (complete_in_order_results args (String c1 ca) (String c2 na) commits
              (List.filter unstable packages) order (Some <$> calls) w2 [] [])
    as [done [Hnd [Hin Hall]]].
  { intros i call Hi. rewrite list_lookup_fmap in Hi.
    destruct (calls !! i) as [call'|] eqn:Ei; simpl in Hi; [|discriminate].
    injection Hi as ->.
    destruct (Forall2_lookup_r _ _ _ _ _ Hcalls Ei) as [pkg [Hpkg Hstarted]]. eauto. }
  { intros i call Hi. now apply elem_of_nil in Hi. }
  { constructor. }
  { constructor. }
  destruct (complete_in_order _ _ _) as [w3 pkgResults]. simpl in Hall.
  specialize (Hres w3). destruct (resume stable w3) as [w4 p]. simpl in *. subst p.
  intros Hret. apply then_return_Resolved in Hret as [contents [Hc ->]].
  exists done, pkgResults, contents.
  split; [reflexivity|]. split; [exact Hc|]. split; [exact Hnd|]. split; [|exact Hall].
  intros i Hi. destruct (Hin i Hi) as [H|H]; [now apply elem_of_nil in H | exact H].
Qed.

(** When the per-package renders complete in the order of the packages,
    before the stable render does, the sequence holds what each of them
    pushes, then the stable result. *)
Lemma separate_in_package_order
  args currentVersion newVersion commits packages w currentAlpha newAlpha :
  Js.truthy_bool (skip args ≫= LifecyclesSkip.changelog) = false ->
  experimentalChangesTreatment args = Some "separate" ->
  alphaVersion currentVersion = Some currentAlpha -> currentAlpha <> EmptyString ->
  alphaVersion newVersion = Some newAlpha -> newAlpha <> EmptyString ->
  exists calls,
    Forall2 (started_for args currentAlpha newAlpha commits)
      (List.filter unstable packages) calls
    /\ snd (writeChangelogs (seq 0 (length (List.filter unstable packages))) args
              currentVersion newVersion commits packages w)
       = then_return
           (fun contents =>
              (mjoin (pushed <$> calls)
               ++ [{| filePath := changelogFile args; fileContents := contents |}])%list)
           (outcome_of EmptyString
              (changelogStream args (stableVersion currentVersion)
                 (stableVersion newVersion) (stableCommits_of commits packages))).
Proof.
  intros Hs Ht Hca Hcane Hna Hnane.
  unfold writeChangelogs. rewrite Hs, Ht. simpl.
  fold (stableCommits_of commits packages).
  unfold separate. rewrite Hca, Hna.
  destruct currentAlpha as [|c1 ca]; [congruence|].
  destruct newAlpha as [|c2 na]; [congruence|]. simpl.
  pose proof (forEach_start_calls args (String c1 ca) (String c2 na) commits
                (List.filter unstable packages) w) as Hcalls.
  destruct (forEach_start _ _ _ _ _ w) as [w1 calls]. simpl in Hcalls.
  exists calls. split; [exact Hcalls|].
  pose proof (fun w' => resume_suspend_outcome args (stableVersion currentVersion)
                          (stableVersion newVersion) (stableCommits_of commits packages)
                          w1 w') as Hres.
  destruct (suspend _ _ _ _ w1) as [w2 stable]. simpl in Hres.
  assert (Hread : Forall (fun call => is_Some (call_oldContent call)) calls).
  { clear -Hcalls. induction Hcalls as [|pkg call pkgs calls Hst _ IH]; constructor.
    - apply Hst.
    - exact IH. }
  pose proof (complete_in_package_order calls Hread [] w2 []) as Hall.
  rewrite (Forall2_length _ _ _ Hcalls).
  simpl in Hall.
  destruct (complete_in_order _ _ _) as [w3 pkgResults]. simpl in Hall. subst pkgResults.
  specialize (Hres w3). destruct (resume stable w3) as [w4 p]. simpl in *. now subst p.
Qed.

End SeparateResults.

(** * The properties on concrete runs

    The runs below use the collaborators of [Demo]. *)

#[local] Existing Instance Demo.collaborators.

Lemma C8_skip_changelog_witness :
  skip Demo.skipping ≫= LifecyclesSkip.changelog = Some true
  /\ writeChangelogs [0] Demo.skipping Demo.v1 Demo.no_alpha Demo.commits Demo.packages
       Demo.empty_world
     = (Demo.empty_world, Resolved []).
Proof.
  split; [reflexivity|].
  apply C8_skip_changelog. reflexivity.
Defined.

Lemma C4_separate_needs_alpha_witness :
  Js.truthy_bool (skip (Demo.options (Some "separate")) ≫= LifecyclesSkip.changelog) = false
  /\ experimentalChangesTreatment (Demo.options (Some "separate")) = Some "separate"
  /\ (alphaVersion Demo.v1 = None \/ alphaVersion Demo.no_alpha = None)
  /\ writeChangelogs [0] (Demo.options (Some "separate")) Demo.v1 Demo.no_alpha Demo.commits
       Demo.packages Demo.empty_world
     = (Demo.empty_world,
        Rejected (Error ("unable to create " +:+ Js.dq +:+ "separate" +:+ Js.dq
                         +:+ " changelogs without alpha package versions"))).
Proof.
  split; [reflexivity|]. split; [reflexivity|]. split; [now right|].
  apply C4_separate_needs_alpha; [reflexivity | reflexivity | now right].
Defined.

(** The message of the error is not the one with single quotes. *)
Lemma C4_message_counterexample :
  Js.truthy_bool (skip (Demo.options (Some "separate")) ≫= LifecyclesSkip.changelog) = false
  /\ experimentalChangesTreatment (Demo.options (Some "separate")) = Some "separate"
  /\ alphaVersion Demo.no_alpha = None
  /\ snd (writeChangelogs [0] (Demo.options (Some "separate")) Demo.v1 Demo.no_alpha
            Demo.commits Demo.packages Demo.empty_world)
     <> Rejected (Error "unable to create 'separate' changelogs without alpha package versions").
Proof.
  split; [reflexivity|]. split; [reflexivity|]. split; [reflexivity|].
  intros H. vm_compute in H. discriminate H.
Qed.

Lemma C10_absent_treatment_is_include_witness :
  experimentalChangesTreatment (Demo.options None) = None
  /\ writeChangelogs [0] (Demo.options None) Demo.v1 Demo.v2 Demo.commits Demo.packages
       Demo.world_with_history
     = writeChangelogs [0] (with_treatment (Demo.options None) (Some "include")) Demo.v1
         Demo.v2 Demo.commits Demo.packages Demo.world_with_history.
Proof.
  split; [reflexivity|].
  apply (proj1 (C10_absent_treatment_is_include [0] (Demo.options None) Demo.v1 Demo.v2
                  Demo.commits Demo.packages Demo.world_with_history)).
  reflexivity.
Defined.

Lemma C7_finalizeContext_witness :
  includeDateInChangelog (Demo.options None) = Some false
  /\ date (changelog_finalizeContext (Demo.options None) Demo.dated) = None
  /\ noteGroups (changelog_finalizeContext (Demo.options None) Demo.dated)
     = Some [{| title := "BREAKING CHANGES TO EXPERIMENTAL FEATURES"; notes := ["renamed"] |}].
Proof.
  split; [reflexivity|]. split.
  - apply (proj2 (C7_finalizeContext (Demo.options None))). reflexivity.
  - reflexivity.
Defined.

Lemma C6_dry_run_witness :
  dryRun Demo.dry = Some true
  /\ files (fst (changelog Demo.dry "1.2.0" "1.3.0" Demo.commits Demo.empty_world))
     = files Demo.empty_world
  /\ snd (changelog Demo.dry "1.2.0" "1.3.0" Demo.commits Demo.empty_world)
     = Resolved (Js.concat Demo.chunks).
Proof.
  split; [reflexivity|].
  pose proof (C6_dry_run Demo.dry "1.2.0" "1.3.0" Demo.commits Demo.empty_world eq_refl)
    as [Hfiles [_ [_ [_ Hresolved]]]].
  split; [exact Hfiles|].
  apply Hresolved. reflexivity.
Defined.

Lemma C9_renderer_error_witness :
  changelogStream (Demo.options None) "1.2.0" "1.3.0" [Demo.poison]
  = (List.map OnData [] ++ OnError "poisoned" :: [])%list
  /\ ~ In (@OnEnd StreamErr) []
  /\ snd (changelog (Demo.options None) "1.2.0" "1.3.0" [Demo.poison] Demo.world_with_history)
     = Rejected (Emitted "poisoned")
  /\ files (fst (changelog (Demo.options None) "1.2.0" "1.3.0" [Demo.poison]
                   Demo.world_with_history))
     = files (createChangelogIfMissing (Demo.options None) Demo.world_with_history).
Proof.
  split; [reflexivity|]. split; [intros []|].
  pose proof (C9_renderer_error (Demo.options None) "1.2.0" "1.3.0" [Demo.poison]
                Demo.world_with_history [] "poisoned" [] eq_refl (fun H => H))
    as [Hout [_ [Hfiles _]]].
  split; [exact Hout | exact Hfiles].
Defined.

Lemma C3_merged_write_witness :
  Js.truthy_bool (dryRun (Demo.options None)) = false
  /\ changelogStream (Demo.options None) "1.2.0" "1.3.0" Demo.commits
     = (List.map OnData Demo.chunks ++ [OnEnd])%list
  /\ snd (changelog (Demo.options None) "1.2.0" "1.3.0" Demo.commits Demo.world_with_history)
     = Resolved (Js.concat Demo.chunks).
Proof.
  split; [reflexivity|]. split; [reflexivity|].
  destruct (C3_merged_write (Demo.options None) "1.2.0" "1.3.0" Demo.commits
              Demo.world_with_history Demo.chunks ltac:(reflexivity) ltac:(reflexivity))
    as [oldContent [body [written [_ [_ [_ [_ [_ [Hresolved _]]]]]]]]].
  exact Hresolved.
Defined.

(** A file whose history does not end with a newline is written without a
    trailing newline. *)
Lemma C3_trailing_newline_counterexample :
  Js.truthy_bool (dryRun (Demo.options None)) = false
  /\ changelogStream (Demo.options None) "1.2.0" "1.3.0" Demo.commits
     = (List.map OnData Demo.chunks ++ [OnEnd])%list
  /\ exists written,
       files (fst (changelog (Demo.options None) "1.2.0" "1.3.0" Demo.commits
                     Demo.world_with_history)) !! "CHANGELOG.md"
       = Some written
       /\ written
          = "# Changelog" +:+ Js.nl +:+ Js.concat Demo.chunks
            +:+ "## [1.2.0]" +:+ Js.nl +:+ "* old entry"
       /\ trailing_newlines written = 0.
Proof.
  split; [reflexivity|]. split; [reflexivity|].
  eexists. split; [vm_compute; reflexivity|]. split; reflexivity.
Qed.

Lemma C2_split_point_witness :
  Js.truthy_bool (dryRun (Demo.options None)) = false
  /\ files Demo.world_with_history !! changelogFile (Demo.options None) = Some Demo.history
  /\ snd (changelog_prefix (Demo.options None) Demo.world_with_history)
     = Some ("## [1.2.0]" +:+ Js.nl +:+ "* old entry").
Proof.
  split; [reflexivity|]. split; [reflexivity|].
  apply (proj2 (proj2 (C2_split_point (Demo.options None) "1.2.0" "1.3.0" Demo.commits
                         Demo.world_with_history Demo.history eq_refl eq_refl))).
  reflexivity.
Defined.

Lemma C5_stable_commits_witness :
  Js.truthy_bool (skip (Demo.options (Some "strip")) ≫= LifecyclesSkip.changelog) = false
  /\ experimentalChangesTreatment (Demo.options (Some "strip")) = Some "strip"
  /\ stableCommits_of Demo.commits Demo.packages
     = [Demo.feat "buckets" ["aws-s3"]; Demo.feat "docs" []]
  /\ writeChangelogs [0] (Demo.options (Some "strip")) Demo.v1 Demo.v2 Demo.commits
       Demo.packages Demo.empty_world
     = (fst (changelog (Demo.options (Some "strip")) "1.2.0" "1.3.0"
               (stableCommits_of Demo.commits Demo.packages) Demo.empty_world),
        single_result (Demo.options (Some "strip"))
          (outcome_of EmptyString
             (changelogStream (Demo.options (Some "strip")) "1.2.0" "1.3.0"
                (stableCommits_of Demo.commits Demo.packages)))).
Proof.
  split; [reflexivity|]. split; [reflexivity|]. split; [reflexivity|].
  pose proof (C5_stable_commits [0] (Demo.options (Some "strip")) Demo.v1 Demo.v2 Demo.commits
                Demo.packages Demo.empty_world eq_refl) as [_ [_ [_ [Hstrip _]]]].
  apply Hstrip. reflexivity.
Defined.

Lemma C1_separate_results_witness :
  Js.truthy_bool (skip (Demo.options (Some "separate")) ≫= LifecyclesSkip.changelog) = false
  /\ experimentalChangesTreatment (Demo.options (Some "separate")) = Some "separate"
  /\ alphaVersion Demo.v1 = Some "1.2.0-alpha.0" /\ "1.2.0-alpha.0" <> EmptyString
  /\ alphaVersion Demo.v2 = Some "1.3.0-alpha.0" /\ "1.3.0-alpha.0" <> EmptyString
  /\ snd (writeChangelogs [0] (Demo.options (Some "separate")) Demo.v1 Demo.v2 Demo.commits
            Demo.packages Demo.empty_world)
     = Resolved [Demo.batch_result; Demo.stable_result]
  /\ exists (done : list nat) pkgResults contents,
       [Demo.batch_result; Demo.stable_result]
       = (pkgResults ++ [{| filePath := "CHANGELOG.md"; fileContents := contents |}])%list
       /\ outcome_of EmptyString
            (changelogStream (Demo.options (Some "separate")) "1.2.0" "1.3.0"
               (stableCommits_of Demo.commits Demo.packages))
          = Resolved contents
       /\ NoDup done
       /\ (forall i, i ∈ done -> i ∈ [0])
       /\ Forall2
            (fun i r => exists pkg,
                 List.filter unstable Demo.packages !! i = Some pkg
                 /\ package_result (Demo.options (Some "separate")) "1.2.0-alpha.0"
                      "1.3.0-alpha.0" Demo.commits pkg r)
            done pkgResults.
Proof.
  split; [reflexivity|]. split; [reflexivity|].
  split; [reflexivity|]. split; [discriminate|].
  split; [reflexivity|]. split; [discriminate|].
  split; [reflexivity|].
  apply (C1_separate_results [0] (Demo.options (Some "separate")) Demo.v1 Demo.v2
           Demo.commits Demo.packages Demo.empty_world "1.2.0-alpha.0" "1.3.0-alpha.0"
           [Demo.batch_result; Demo.stable_result]);
    [reflexivity | reflexivity | reflexivity | discriminate
    | reflexivity | discriminate | reflexivity].
Defined.

(** Two runs under [separate] with both alpha versions defined.  With an
    empty alpha version the call fails.  With the stable render completing
    before the render of the one unstable package, the sequence returned
    holds the stable result alone. *)
Lemma C1_separate_counterexample :
  (Js.truthy_bool (skip (Demo.options (Some "separate")) ≫= LifecyclesSkip.changelog) = false
   /\ experimentalChangesTreatment (Demo.options (Some "separate")) = Some "separate"
   /\ alphaVersion Demo.v1 = Some "1.2.0-alpha.0"
   /\ alphaVersion Demo.empty_alpha = Some EmptyString
   /\ writeChangelogs [0] (Demo.options (Some "separate")) Demo.v1 Demo.empty_alpha
        Demo.commits Demo.packages Demo.empty_world
      = (Demo.empty_world,
         Rejected (Error ("unable to create " +:+ Js.dq +:+ "separate" +:+ Js.dq
                          +:+ " changelogs without alpha package versions"))))
  /\ (alphaVersion Demo.v2 = Some "1.3.0-alpha.0"
      /\ List.filter unstable Demo.packages = [Demo.unstable_pkg]
      /\ snd (writeChangelogs [] (Demo.options (Some "separate")) Demo.v1 Demo.v2
                Demo.commits Demo.packages Demo.empty_world)
         = Resolved [Demo.stable_result]).
Proof.
  split.
  - split; [reflexivity|]. split; [reflexivity|]. split; [reflexivity|].
    split; reflexivity.
  - split; [reflexivity|]. split; reflexivity.
Qed.

(** When every package render completes before the stable one, all the
    results are there. *)
Example separate_in_order :
  snd (writeChangelogs [0] (Demo.options (Some "separate")) Demo.v1 Demo.v2
         Demo.commits Demo.packages Demo.empty_world)
  = Resolved [Demo.batch_result; Demo.stable_result].
Proof. reflexivity. Qed.

(** * Further properties of the operations *)

(** ** Which files an operation may change *)

Lemma only_touches_refl paths w : only_touches paths w w.
Proof. intros p. split; [reflexivity | trivial]. Qed.

Lemma only_touches_trans paths w1 w2 w3 :
  only_touches paths w1 w2 -> only_touches paths w2 w3 -> only_touches paths w1 w3.
Proof.
  intros H12 H23 p. destruct (H12 p) as [Ha Hb], (H23 p) as [Hc Hd]. split.
  - intros Hp. rewrite Hc, Ha by assumption. reflexivity.
  - intros Hp. apply Hd, Hb, Hp.
Qed.

Lemma only_touches_weaken paths paths' w w' :
  (forall p, p ∈ paths -> p ∈ paths') ->
  only_touches paths w w' -> only_touches paths' w w'.
Proof.
  intros Hsub H p. destruct (H p) as [Ha Hb]. split; [|exact Hb].
  intros Hp. apply Ha. intros Hin. apply Hp, Hsub, Hin.
Qed.

Lemma only_touches_record paths e w : only_touches paths w (record e w).
Proof. intros p. split; [reflexivity | trivial]. Qed.

Lemma only_touches_writeFileSync path content w :
  only_touches [path] w (writeFileSync path content w).
Proof.
  intros p. unfold writeFileSync. simpl. split.
  - intros Hp. apply lookup_insert_ne. intros ->. apply Hp. now left.
  - intros Hsome. destruct (decide (path = p)) as [->|Hne].
    + rewrite lookup_insert_eq. eauto.
    + now rewrite lookup_insert_ne.
Qed.

Lemma only_touches_writeFile args path content w :
  only_touches [path] w (writeFile args path content w).
Proof.
  unfold writeFile. destruct (Js.truthy_bool (dryRun args)).
  - apply only_touches_refl.
  - apply only_touches_writeFileSync.
Qed.

Section Frame.
Context {ext : Collaborators}.

Lemma only_touches_createChangelogIfMissing args w :
  only_touches [changelogFile args] w (createChangelogIfMissing args w).
Proof.
  unfold createChangelogIfMissing, existsSync, notify.
  destruct (bool_decide _); simpl.
  - apply only_touches_record.
  - eapply only_touches_trans; [|apply only_touches_writeFile].
    eapply only_touches_trans; apply only_touches_record.
Qed.

Lemma only_touches_changelog_prefix args w :
  only_touches [changelogFile args] w (fst (changelog_prefix args w)).
Proof.
  unfold changelog_prefix.
  pose proof (only_touches_createChangelogIfMissing args w) as Hc.
  destruct (Js.truthy_bool (dryRun args)).
  - simpl. exact Hc.
  - unfold readFileSync.
    destruct (files (createChangelogIfMissing args w) !! changelogFile args) as [old|];
      [destruct (negb _)|]; simpl;
      (eapply only_touches_trans; [exact Hc | apply only_touches_record]).
Qed.

Lemma only_touches_handle args oldContent events w c :
  only_touches [changelogFile args] w
    (fst (fold_left (handle args oldContent) events (w, c))).
Proof.
  revert w c. induction events as [|ev events IH]; intros w c; simpl.
  - apply only_touches_refl.
  - destruct ev as [buffer|err|]; simpl; try apply IH.
    eapply only_touches_trans; [|apply IH].
    unfold notify, debug.
    destruct (Js.truthy_bool (dryRun args)).
    + eapply only_touches_trans; apply only_touches_record.
    + eapply only_touches_trans; [apply only_touches_record | apply only_touches_writeFile].
Qed.

Lemma only_touches_changelog_render args currentVersion newVersion commits oldContent w :
  only_touches [changelogFile args] w
    (fst (changelog_render args currentVersion newVersion commits oldContent w)).
Proof.
  unfold changelog_render.
  pose proof (only_touches_handle args oldContent
                (changelogStream args currentVersion newVersion commits) w
                {| content := EmptyString; promise := Pending |}) as H.
  destruct (fold_left _ _ _) as [w' c]. exact H.
Qed.

Lemma only_touches_resume call w :
  only_touches [changelogFile (call_args call)] w (fst (resume call w)).
Proof.
  unfold resume. destruct (call_oldContent call).
  - apply only_touches_changelog_render.
  - apply only_touches_refl.
Qed.

Lemma suspend_call_args args currentVersion newVersion commits w :
  call_args (snd (suspend args currentVersion newVersion commits w)) = args.
Proof. unfold suspend. now destruct (changelog_prefix args w). Qed.

Lemma suspend_world args currentVersion newVersion commits w :
  fst (suspend args currentVersion newVersion commits w) = fst (changelog_prefix args w).
Proof. unfold suspend. now destruct (changelog_prefix args w). Qed.

Lemma only_touches_changelog args currentVersion newVersion commits w :
  only_touches [changelogFile args] w
    (fst (changelog args currentVersion newVersion commits w)).
Proof.
  unfold changelog.
  pose proof (suspend_call_args args currentVersion newVersion commits w) as Ha.
  pose proof (suspend_world args currentVersion newVersion commits w) as Hw.
  destruct (suspend args currentVersion newVersion commits w) as [w1 call]. simpl in *.
  subst w1. apply (only_touches_trans _ _ (fst (changelog_prefix args w))).
  - apply only_touches_changelog_prefix.
  - pose proof (only_touches_resume call (fst (changelog_prefix args w))) as Hr.
    rewrite Ha in Hr. exact Hr.
Qed.

Lemma changelog_prefix_files args w :
  files (fst (changelog_prefix args w)) = files (createChangelogIfMissing args w).
Proof.
  unfold changelog_prefix, readFileSync.
  destruct (Js.truthy_bool (dryRun args)); [reflexivity|].
  destruct (files (createChangelogIfMissing args w) !! changelogFile args) as [old|];
    [destruct (negb _)|]; reflexivity.
Qed.

(** X1: [changelog] changes no file but [args.changelogFile], and removes
    none: whatever the options and whatever the stream does, every other
    path holds what it held, and a file that was there is still there. *)
Theorem changelog_touches_its_file_only args currentVersion newVersion commits w path :
  (path <> changelogFile args ->
   files (fst (changelog args currentVersion newVersion commits w)) !! path
   = files w !! path)
  /\ (is_Some (files w !! path) ->
      is_Some (files (fst (changelog args currentVersion newVersion commits w)) !! path)).
Proof.
  destruct (only_touches_changelog args currentVersion newVersion commits w path) as [Ha Hb].
  split; [|exact Hb].
  intros Hne. apply Ha. intros Hin. apply list_elem_of_singleton in Hin. contradiction.
Qed.

(** X2: outside a dry run, the target file exists once [changelog] has
    run, also when the renderer fails or never ends. *)
Theorem changelog_leaves_the_file args currentVersion newVersion commits w :
  Js.truthy_bool (dryRun args) = false ->
  is_Some (files (fst (changelog args currentVersion newVersion commits w))
             !! changelogFile args).
Proof.
  intros D.
  destruct (changelog_unfold args currentVersion newVersion commits w) as [old [_ ->]].
  apply (only_touches_changelog_render args currentVersion newVersion commits old).
  rewrite changelog_prefix_files. now apply createChangelogIfMissing_exists.
Qed.

(** X3: when the stream only gives data and neither ends nor fails, the
    promise of [changelog] stays pending, and after the synchronous start of
    the call (existence check, creation of a missing file, read) nothing
    more happens: no notification and no write. *)
Theorem changelog_never_settles args currentVersion newVersion commits w :
  stalled (changelogStream args currentVersion newVersion commits) ->
  changelog args currentVersion newVersion commits w
  = (fst (changelog_prefix args w), Pending).
Proof.
  intros [chunks Hs].
  destruct (changelog_unfold args currentVersion newVersion commits w) as [old [_ ->]].
  unfold changelog_render. rewrite Hs.
  rewrite <- (app_nil_r (List.map OnData chunks)), fold_handle_data. reflexivity.
Qed.

(** X4: the first run on a missing file, outside a dry run, with a stream
    of chunks closed by its end signal.  The file is created with one
    newline and notified as created, read back, and overwritten with
    [changeLogHeader + LF + rendered text] whose trailing newlines, the one
    of the created file included, are collapsed; these six calls are all the
    world sees, in this order. *)
Theorem changelog_first_run args currentVersion newVersion commits w chunks :
  Js.truthy_bool (dryRun args) = false ->
  files w !! changelogFile args = None ->
  changelogStream args currentVersion newVersion commits
  = (List.map OnData chunks ++ [OnEnd])%list ->
  changelog args currentVersion newVersion commits w
  = ({| files :=
          <[changelogFile args :=
              Js.to_string (changeLogHeader args) +:+ Js.nl
              +:+ Pattern.replace_trailing_newlines (Js.concat chunks +:+ Js.nl)]>
            (files w);
        trace :=
          (trace w
           ++ [ExistsSync (changelogFile args);
               Notify "created %s" [changelogFile args];
               WriteFileSync (changelogFile args) Js.nl;
               ReadFileSync (changelogFile args);
               Notify "outputting changes to %s" [changelogFile args];
               WriteFileSync (changelogFile args)
                 (Js.to_string (changeLogHeader args) +:+ Js.nl
                  +:+ Pattern.replace_trailing_newlines (Js.concat chunks +:+ Js.nl))])%list
     |},
     Resolved (Js.concat chunks)).
Proof.
  intros D Hmissing Hs.
  assert (Hpre : changelog_prefix args w
                 = ({| files := <[changelogFile args := Js.nl]> (files w);
                       trace := (trace w
                                 ++ [ExistsSync (changelogFile args);
                                     Notify "created %s" [changelogFile args];
                                     WriteFileSync (changelogFile args) Js.nl;
                                     ReadFileSync (changelogFile args)])%list |},
                    Some Js.nl)).
  { unfold changelog_prefix, createChangelogIfMissing, existsSync, writeFile, notify,
      readFileSync, writeFileSync, record.
    rewrite D, Hmissing.
    rewrite bool_decide_eq_false_2 by (intros [x Hx]; discriminate).
    simpl. rewrite lookup_insert_eq. simpl.
    rewrite <- !app_assoc. reflexivity. }
  unfold changelog, suspend, resume. rewrite Hpre. simpl.
  rewrite (changelog_render_success _ _ _ _ _ _ chunks D Hs).
  unfold writeFileSync, notify, record. simpl.
  rewrite insert_insert_eq, <- !app_assoc. reflexivity.
Qed.

(** X5: the text a call resolves with does not depend on the dry-run flag
    nor on the files: a dry run previews the very text the real run gives,
    and rejects or stays pending when the real run does. *)
Theorem dry_run_previews_the_text args flag currentVersion newVersion commits w w' :
  snd (changelog (with_dryRun args flag) currentVersion newVersion commits w)
  = snd (changelog args currentVersion newVersion commits w').
Proof.
  rewrite !changelog_outcome. reflexivity.
Qed.

End Frame.

(** ** The treatments of [writeChangelogs] *)

Section Treatments.
Context {ext : Collaborators}.

Lemma complete_in_order_nil order st : complete_in_order order [] st = st.
Proof. induction order as [|i order IH]; simpl; [reflexivity | exact IH]. Qed.

Lemma finish_package_world call w results :
  fst (finish_package call (w, results)) = fst (resume call w).
Proof.
  unfold finish_package. destruct (resume call w) as [w1 p]. now destruct p.
Qed.

(** A relation between worlds that every completion of a suspended render
    keeps is kept by the completions in any order. *)
Lemma complete_in_order_keeps (R : World -> World -> Prop) (P : Suspended -> Prop) :
  (forall w, R w w) ->
  (forall a b c, R a b -> R b c -> R a c) ->
  (forall call w, P call -> R w (fst (resume call w))) ->
  forall order suspended st,
    Forall (fun o => forall call, o = Some call -> P call) suspended ->
    R (fst st) (fst (complete_in_order order suspended st)).
Proof.
  intros Hrefl Htrans Hresume.
  induction order as [|i order IH]; intros suspended [w results] Hall; [apply Hrefl|].
  rewrite complete_in_order_cons.
  destruct (suspended !! i) as [[call|]|] eqn:Ei; try now apply IH.
  apply (Htrans _ (fst (finish_package call (w, results)))).
  - rewrite finish_package_world. apply Hresume.
    rewrite Forall_lookup in Hall. now apply (Hall i (Some call) Ei).
  - apply IH. apply Forall_insert; [exact Hall|]. intros call' H. discriminate.
Qed.

(** The same for the synchronous starts of the [forEach] callback. *)
Lemma forEach_start_keeps (R : World -> World -> Prop) args currentAlpha newAlpha commits :
  (forall w, R w w) ->
  (forall a b c, R a b -> R b c -> R a c) ->
  forall pkgs,
    (forall pkg w, In pkg pkgs ->
       R w (fst (changelog_prefix (with_changelogFile args (package_changelog args pkg)) w))) ->
    forall w, R w (fst (forEach_start args currentAlpha newAlpha commits pkgs w)).
Proof.
  intros Hrefl Htrans. induction pkgs as [|pkg pkgs IH]; intros Hstep w; simpl; [apply Hrefl|].
  unfold start_package.
  pose proof (suspend_world (with_changelogFile args (path_join (location pkg) (changelogFile args)))
                currentAlpha newAlpha
                (filterCommits commits
                   {| excludePackages := None; includePackages := Some [simplifiedName pkg] |})
                w) as Hw.
  destruct (suspend _ _ _ _ w) as [w1 call]. simpl in Hw. subst w1.
  assert (IH' : forall w0, R w0 (fst (forEach_start args currentAlpha newAlpha commits pkgs w0))).
  { apply IH. intros p w0 Hp. apply Hstep. now right. }
  specialize (IH' (fst (changelog_prefix
                          (with_changelogFile args (path_join (location pkg) (changelogFile args)))
                          w))).
  destruct (forEach_start _ _ _ _ pkgs _) as [w2 calls]. simpl in *.
  eapply Htrans; [|exact IH'].
  apply (Hstep pkg w). now left.
Qed.

(** The world that [separate] returns, past its guard, in terms of its
    three stages. *)
Lemma separate_keeps (R : World -> World -> Prop) (P : Suspended -> Prop)
  order args currentVersion newVersion stableCommits commits unstablePackages w :
  (forall w, R w w) ->
  (forall a b c, R a b -> R b c -> R a c) ->
  (forall call w, P call -> R w (fst (resume call w))) ->
  (forall pkg w, In pkg unstablePackages ->
     R w (fst (changelog_prefix (with_changelogFile args (package_changelog args pkg)) w))) ->
  (forall w, R w (fst (changelog_prefix args w))) ->
  (forall pkg call, In pkg unstablePackages ->
     call_args call = with_changelogFile args (package_changelog args pkg) -> P call) ->
  (forall call, call_args call = args -> P call) ->
  R w (fst (separate order args currentVersion newVersion stableCommits commits
              unstablePackages w)).
Proof.
  intros Hrefl Htrans Hresume Hpkg Hstable HP HPs. unfold separate.
  destruct (negb _ || negb _); [apply Hrefl|].
  set (ca := default EmptyString (alphaVersion currentVersion)).
  set (na := default EmptyString (alphaVersion newVersion)).
  pose proof (forEach_start_keeps R args ca na commits Hrefl Htrans unstablePackages
                Hpkg w) as H1.
  pose proof (forEach_start_calls args ca na commits unstablePackages w) as Hcalls.
  destruct (forEach_start args ca na commits unstablePackages w) as [w1 calls].
  simpl in H1, Hcalls.
  pose proof (suspend_world args (stableVersion currentVersion) (stableVersion newVersion)
                stableCommits w1) as Hw2.
  pose proof (suspend_call_args args (stableVersion currentVersion)
                (stableVersion newVersion) stableCommits w1) as Ha2.
  destruct (suspend args _ _ stableCommits w1) as [w2 stable]. simpl in Hw2, Ha2.
  assert (Hall : Forall (fun o : option Suspended => forall call, o = Some call -> P call)
                   (Some <$> calls)).
  { apply Forall_fmap. clear -Hcalls HP.
    induction Hcalls as [|pkg call pkgs calls Hst _ IH]; constructor.
    - simpl. intros call' H. injection H as <-. destruct Hst as [Hargs _].
      apply (HP pkg); [now left | exact Hargs].
    - apply IH. intros pkg' call' Hin. apply HP. now right. }
  pose proof (complete_in_order_keeps R P Hrefl Htrans Hresume order (Some <$> calls)
                (w2, []) Hall) as H3.
  destruct (complete_in_order order (Some <$> calls) (w2, [])) as [w3 results].
  simpl in H3.
  pose proof (Hresume stable w3 (HPs stable Ha2)) as H4.
  destruct (resume stable w3) as [w4 p]. simpl in *.
  eapply Htrans; [exact H1|]. eapply Htrans; [|eapply Htrans; [exact H3 | exact H4]].
  subst w2. apply Hstable.
Qed.

End Treatments.

Section TreatmentProperties.
Context {ext : Collaborators}.

Lemma writeChangelogs_only_touches order args currentVersion newVersion commits packages w :
  only_touches
    (changelogFile args
     :: List.map (package_changelog args) (List.filter unstable packages))
    w (fst (writeChangelogs order args currentVersion newVersion commits packages w)).
Proof.
  set (paths := changelogFile args
                :: List.map (package_changelog args) (List.filter unstable packages)).
  assert (Hfile : forall p, p ∈ [changelogFile args] -> p ∈ paths).
  { intros p Hp. apply list_elem_of_singleton in Hp. subst p. now left. }
  unfold writeChangelogs.
  destruct (Js.truthy_bool _); [apply only_touches_refl|].
  destruct (String.eqb _ "include").
  { pose proof (only_touches_changelog args (stableVersion currentVersion)
                  (stableVersion newVersion) commits w) as H.
    destruct (changelog _ _ _ _ _) as [w1 p]. simpl in *.
    exact (only_touches_weaken _ _ _ _ Hfile H). }
  destruct (String.eqb _ "strip").
  { match goal with |- context [changelog ?a ?b ?c ?d ?e] =>
      pose proof (only_touches_changelog a b c d e) as H;
      destruct (changelog a b c d e) as [w1 p] end.
    simpl in *. exact (only_touches_weaken _ _ _ _ Hfile H). }
  destruct (String.eqb _ "separate"); [|apply only_touches_refl].
  apply (separate_keeps (only_touches paths)
           (fun call => changelogFile (call_args call) ∈ paths)).
  - apply only_touches_refl.
  - apply only_touches_trans.
  - intros call w0 Hin.
    apply (only_touches_weaken [changelogFile (call_args call)]);
      [|apply only_touches_resume].
    intros p Hp. apply list_elem_of_singleton in Hp. now subst p.
  - intros pkg w0 Hin.
    apply (only_touches_weaken [package_changelog args pkg]);
      [|apply (only_touches_changelog_prefix
                 (with_changelogFile args (package_changelog args pkg)))].
    intros p Hp. apply list_elem_of_singleton in Hp. subst p. right.
    apply list_elem_of_In, in_map, Hin.
  - intros w0. exact (only_touches_weaken _ _ _ _ Hfile (only_touches_changelog_prefix args w0)).
  - intros pkg call Hin ->. simpl. right. apply list_elem_of_In, in_map, Hin.
  - intros call ->. now left.
Qed.

(** X6: whatever the treatment and the completion order, [writeChangelogs]
    changes no file but [args.changelogFile] and the changelogs of the
    unstable packages, and removes none. *)
Theorem writeChangelogs_touches_changelogs_only
  order args currentVersion newVersion commits packages w path :
  (path <> changelogFile args ->
   (forall pkg, In pkg packages -> unstable pkg = true ->
      path <> package_changelog args pkg) ->
   files (fst (writeChangelogs order args currentVersion newVersion commits packages w))
     !! path
   = files w !! path)
  /\ (is_Some (files w !! path) ->
      is_Some (files (fst (writeChangelogs order args currentVersion newVersion commits
                             packages w)) !! path)).
Proof.
  destruct (writeChangelogs_only_touches order args currentVersion newVersion commits
              packages w path) as [Ha Hb].
  split; [|exact Hb].
  intros Hne Hpkgs. apply Ha. intros Hin.
  apply elem_of_cons in Hin as [Hin|Hin]; [contradiction|].
  apply list_elem_of_In, in_map_iff in Hin as [pkg [Hp Hin]].
  apply filter_In in Hin as [Hin Hu]. exact (Hpkgs pkg Hin Hu (eq_sym Hp)).
Qed.

Lemma changelog_prefix_dry args w :
  Js.truthy_bool (dryRun args) = true ->
  files (fst (changelog_prefix args w)) = files w.
Proof.
  intros D. rewrite changelog_prefix_files. now apply createChangelogIfMissing_dry.
Qed.

Lemma resume_dry call w :
  Js.truthy_bool (dryRun (call_args call)) = true ->
  files (fst (resume call w)) = files w.
Proof.
  intros D. unfold resume. destruct (call_oldContent call) as [old|]; [|reflexivity].
  unfold changelog_render.
  pose proof (fold_handle_dry (call_args call) old
                (changelogStream (call_args call) (call_currentVersion call)
                   (call_newVersion call) (call_commits call))
                w {| content := EmptyString; promise := Pending |} D) as [H _].
  destruct (fold_left _ _ _) as [w' c]. exact H.
Qed.

(** X7: in a dry run [writeChangelogs] leaves every file as it was, under
    every treatment and for every completion order: the package changelogs
    of the [separate] treatment are neither created nor written. *)
Theorem writeChangelogs_dry_run order args currentVersion newVersion commits packages w :
  dryRun args = Some true ->
  files (fst (writeChangelogs order args currentVersion newVersion commits packages w))
  = files w.
Proof.
  intros D.
  assert (Dt : Js.truthy_bool (dryRun args) = true) by now rewrite D.
  assert (Hchangelog : forall c n cs,
             files (fst (changelog args c n cs w)) = files w).
  { intros c n cs. destruct (changelog_unfold args c n cs w) as [old [_ ->]].
    unfold changelog_render.
    pose proof (fold_handle_dry args old (changelogStream args c n cs)
                  (fst (changelog_prefix args w))
                  {| content := EmptyString; promise := Pending |} Dt) as [H _].
    destruct (fold_left _ _ _) as [w' c']. simpl in *. rewrite H.
    now apply changelog_prefix_dry. }
  unfold writeChangelogs.
  destruct (Js.truthy_bool (skip args ≫= _)); [reflexivity|].
  destruct (String.eqb _ "include").
  { specialize (Hchangelog (stableVersion currentVersion) (stableVersion newVersion) commits).
    now destruct (changelog _ _ _ _ _). }
  destruct (String.eqb _ "strip").
  { match goal with |- context [changelog ?a ?b ?c ?d ?e] =>
      specialize (Hchangelog b c d); now destruct (changelog a b c d e) end. }
  destruct (String.eqb _ "separate"); [|reflexivity].
  apply (separate_keeps (fun a b => files b = files a)
           (fun call => Js.truthy_bool (dryRun (call_args call)) = true)).
  - reflexivity.
  - intros a b c Hab Hbc. now rewrite Hbc.
  - intros call w0. apply resume_dry.
  - intros pkg w0 _. now apply changelog_prefix_dry.
  - intros w0. now apply changelog_prefix_dry.
  - intros pkg call _ ->. exact Dt.
  - intros call ->. exact Dt.
Qed.

End TreatmentProperties.

Section TreatmentResults.
Context {ext : Collaborators}.

(** X8: a failure of the top-level render is the failure of
    [writeChangelogs].  When the stream of that render (on all the commits
    under [include] or an absent treatment, on [stableCommits] under [strip]
    and [separate]) signals an error before any end, the call rejects with
    the value the stream carried; under [separate] this holds whatever the
    per-package renders gave. *)
Theorem writeChangelogs_rejects_with_the_render
  order args currentVersion newVersion commits packages w chunks err rest :
  Js.truthy_bool (skip args ≫= LifecyclesSkip.changelog) = false ->
  ((experimentalChangesTreatment args = None
    \/ experimentalChangesTreatment args = Some "include")
   /\ changelogStream args (stableVersion currentVersion) (stableVersion newVersion) commits
      = (List.map OnData chunks ++ OnError err :: rest)%list)
  \/ ((experimentalChangesTreatment args = Some "strip"
       \/ (experimentalChangesTreatment args = Some "separate"
           /\ Js.truthy_string (alphaVersion currentVersion) = true
           /\ Js.truthy_string (alphaVersion newVersion) = true))
      /\ changelogStream args (stableVersion currentVersion) (stableVersion newVersion)
           (stableCommits_of commits packages)
         = (List.map OnData chunks ++ OnError err :: rest)%list) ->
  snd (writeChangelogs order args currentVersion newVersion commits packages w)
  = Rejected (Emitted err).
Proof.
  intros Hs Hcase. unfold writeChangelogs. rewrite Hs.
  fold (stableCommits_of commits packages).
  destruct Hcase as [[Ht Hstream] | [Ht Hstream]].
  - assert (Hinc : String.eqb (default "include" (experimentalChangesTreatment args))
                     "include" = true) by (destruct Ht as [-> | ->]; reflexivity).
    rewrite Hinc.
    pose proof (changelog_outcome args (stableVersion currentVersion)
                  (stableVersion newVersion) commits w) as Ho.
    destruct (changelog _ _ _ _ _) as [w1 p]. simpl in *. subst p.
    now rewrite Hstream, outcome_of_data.
  - destruct Ht as [-> | [-> [Hc Hn]]]; simpl.
    + pose proof (changelog_outcome args (stableVersion currentVersion)
                    (stableVersion newVersion) (stableCommits_of commits packages) w) as Ho.
      destruct (changelog _ _ _ _ _) as [w1 p]. simpl in *. subst p.
      now rewrite Hstream, outcome_of_data.
    + destruct (separate_result order args currentVersion newVersion
                  (stableCommits_of commits packages) commits
                  (List.filter unstable packages) w Hc Hn) as [results ->].
      now rewrite Hstream, outcome_of_data.
Qed.

(** X9: with no unstable package, and alpha versions that pass the guard,
    the [separate] treatment is the [strip] treatment: same world, same
    result, whatever the completion orders. *)
Theorem separate_without_unstable_is_strip
  order order' args currentVersion newVersion commits packages w :
  List.filter unstable packages = [] ->
  Js.truthy_string (alphaVersion currentVersion) = true ->
  Js.truthy_string (alphaVersion newVersion) = true ->
  writeChangelogs order (with_treatment args (Some "separate")) currentVersion newVersion
    commits packages w
  = writeChangelogs order' (with_treatment args (Some "strip")) currentVersion newVersion
      commits packages w.
Proof.
  intros Hnone Hca Hna. unfold writeChangelogs. simpl.
  destruct (Js.truthy_bool (skip args ≫= _)); [reflexivity|].
  rewrite Hnone. unfold separate. rewrite Hca, Hna. simpl.
  rewrite changelog_with_treatment.
  destruct (suspend (with_treatment args (Some "separate")) _ _ _ w) as [w2 stable] eqn:Es.
  assert (Hc : changelog (with_treatment args (Some "separate"))
                 (stableVersion currentVersion) (stableVersion newVersion)
                 (stableCommits_of commits packages) w
               = resume stable w2).
  { unfold changelog, stableCommits_of. rewrite Hnone. simpl. now rewrite Es. }
  rewrite complete_in_order_nil, <- Hc, changelog_with_treatment.
  unfold stableCommits_of. rewrite Hnone. simpl.
  now destruct (changelog args _ _ _ w).
Qed.

End TreatmentResults.

Section PackageOrder.
Context {ext : Collaborators}.

Lemma pushed_of_started args currentAlpha newAlpha commits pkg call text :
  started_for args currentAlpha newAlpha commits pkg call ->
  outcome_of EmptyString
    (changelogStream (with_changelogFile args (package_changelog args pkg))
       currentAlpha newAlpha
       (filterCommits commits
          {| excludePackages := None; includePackages := Some [simplifiedName pkg] |}))
  = Resolved text ->
  exists r, pushed call = [r] /\ package_result args currentAlpha newAlpha commits pkg r.
Proof.
  intros [Ha [Hc [Hn [Hcs _]]]] Hout. unfold pushed.
  rewrite Ha, Hc, Hn, Hcs. unfold package_changelog in Hout. rewrite Hout.
  eexists. split; [reflexivity|]. split; [reflexivity | exact Hout].
Qed.

(** X10: under the [separate] treatment, when the per-package renders
    complete in the order of the packages before the stable render does, and
    every render resolves, the sequence returned holds one result per
    unstable package, in the order of the packages (its path the changelog
    of the package, its contents rendered from the commits of the package
    with the alpha version pair), followed by the stable result. *)
Theorem separate_returns_each_package_in_order
  args currentVersion newVersion commits packages w currentAlpha newAlpha contents :
  Js.truthy_bool (skip args ≫= LifecyclesSkip.changelog) = false ->
  experimentalChangesTreatment args = Some "separate" ->
  alphaVersion currentVersion = Some currentAlpha -> currentAlpha <> EmptyString ->
  alphaVersion newVersion = Some newAlpha -> newAlpha <> EmptyString ->
  (forall pkg, In pkg packages -> unstable pkg = true ->
     exists text,
       outcome_of EmptyString
         (changelogStream (with_changelogFile args (package_changelog args pkg))
            currentAlpha newAlpha
            (filterCommits commits
               {| excludePackages := None; includePackages := Some [simplifiedName pkg] |}))
       = Resolved text) ->
  outcome_of EmptyString
    (changelogStream args (stableVersion currentVersion) (stableVersion newVersion)
       (stableCommits_of commits packages))
  = Resolved contents ->
  exists pkgResults,
    snd (writeChangelogs (seq 0 (length (List.filter unstable packages))) args
           currentVersion newVersion commits packages w)
    = Resolved
        (pkgResults ++ [{| filePath := changelogFile args; fileContents := contents |}])%list
    /\ Forall2 (package_result args currentAlpha newAlpha commits)
         (List.filter unstable packages) pkgResults.
Proof.
  intros Hs Ht Hca Hcane Hna Hnane Hpkgs Hstable.
  destruct (separate_in_package_order args currentVersion newVersion commits packages w
              currentAlpha newAlpha Hs Ht Hca Hcane Hna Hnane) as [calls [Hcalls ->]].
  rewrite Hstable. simpl.
  exists (mjoin (pushed <$> calls)). split; [reflexivity|].
  assert (Hres : forall pkg, In pkg (List.filter unstable packages) ->
            exists text,
              outcome_of EmptyString
                (changelogStream (with_changelogFile args (package_changelog args pkg))
                   currentAlpha newAlpha
                   (filterCommits commits
                      {| excludePackages := None;
                         includePackages := Some [simplifiedName pkg] |}))
              = Resolved text).
  { intros pkg Hin. apply filter_In in Hin as [Hin Hu]. now apply Hpkgs. }
  clear Hpkgs. induction Hcalls as [|pkg call pkgs calls Hst _ IH]; [constructor|].
  destruct (Hres pkg (or_introl eq_refl)) as [text Htext].
  destruct (pushed_of_started _ _ _ _ _ _ _ Hst Htext) as [r [Hr Hpr]].
  rewrite fmap_cons. simpl. rewrite Hr. simpl. constructor; [exact Hpr|].
  apply IH. intros p Hp. apply Hres. now right.
Qed.

End PackageOrder.

(** ** More on the release pattern and on the newlines *)

Lemma here_first_character before rest :
  Release.here before rest ->
  exists c tail, rest = String c tail /\ (c = "#"%char \/ c = "<"%char).
Proof.
  intros [[_ [m [tail [-> [h [br [major [minor [patch [-> [[Hne Hh] _]]]]]]]]]]] | [tail ->]].
  - destruct h as [|x h']; [congruence|].
    simpl in Hh. apply andb_true_iff in Hh as [Hx _].
    unfold Release.is_hash in Hx. apply Ascii.eqb_eq in Hx. subst x.
    simpl. eexists _, _. split; [reflexivity | now left].
  - simpl. eexists _, _. split; [reflexivity | now right].
Qed.

(** X11: [search] answers -1 or an offset inside the text, never its end;
    and the old content cut at that offset starts with a [#] or with a
    [<]: what is kept always opens with a release heading or an anchor. *)
Theorem search_offset_and_kept_text s :
  (Pattern.search s = (-1)%Z
   \/ (0 <= Pattern.search s < Z.of_nat (String.length s))%Z)
  /\ (Pattern.search s <> (-1)%Z ->
      exists c tail,
        Js.substring (Pattern.search s) s = String c tail
        /\ (c = "#"%char \/ c = "<"%char)).
Proof.
  destruct (search_cases s) as [[discarded [kept [Hs [Hc [Hh [_ Hsub]]]]]] | [Hs _]].
  - destruct (here_first_character _ _ Hh) as [c [tail [Hk Hc']]].
    split.
    + right. rewrite Hs, Hc, length_append, Hk. simpl. lia.
    + intros _. exists c, tail. now rewrite Hsub.
  - split; [now left | contradiction].
Qed.

Lemma all_chars_weaken (p q : ascii -> bool) s :
  (forall c, p c = true -> q c = true) ->
  Js.all_chars p s = true -> Js.all_chars q s = true.
Proof.
  intros Hpq. induction s as [|c s IH]; simpl; [reflexivity|].
  intros H. apply andb_true_iff in H as [Hc Hs]. now rewrite (Hpq c Hc), IH.
Qed.

Lemma hashes_one_line h : Js.all_chars Release.is_hash h = true -> one_line h = true.
Proof.
  apply all_chars_weaken. intros c Hc.
  unfold Release.is_hash in Hc. apply Ascii.eqb_eq in Hc. now subst c.
Qed.

Lemma digits_one_line d : Js.all_chars Js.is_digit d = true -> one_line d = true.
Proof.
  apply all_chars_weaken. intros c Hc.
  unfold Pattern.newline. destruct (Ascii.eqb c Js.LF) eqn:E; [|reflexivity].
  apply Ascii.eqb_eq in E. subst c. discriminate Hc.
Qed.

Lemma one_line_append a b : one_line (a +:+ b) = one_line a && one_line b.
Proof. apply all_chars_append. Qed.

Lemma heading_one_line m : Release.heading m -> one_line m = true.
Proof.
  intros [h [br [major [minor [patch [-> [[_ Hh] [Hbr [[_ H1] [[_ H2] [_ H3]]]]]]]]]]].
  rewrite !one_line_append, (hashes_one_line h Hh), (digits_one_line major H1),
    (digits_one_line minor H2), (digits_one_line patch H3).
  now destruct Hbr as [-> | ->].
Qed.

(** The text a match covers, and what follows it. *)
Lemma here_covers before rest :
  Release.here before rest ->
  exists m tail, rest = m +:+ tail /\ one_line m = true
                 /\ forall tail', Release.here before (m +:+ tail').
Proof.
  intros [[Hline [m [tail [-> Hm]]]] | [tail ->]].
  - exists m, tail. split; [reflexivity|]. split; [now apply heading_one_line|].
    intros tail'. left. split; [exact Hline|]. now exists m, tail'.
  - exists "<a name=", tail. split; [reflexivity|]. split; [reflexivity|].
    intros tail'. right. now exists tail'.
Qed.

Lemma append_split before rest header after :
  before +:+ rest = header +:+ after ->
  String.length before <= String.length header ->
  exists middle, header = before +:+ middle /\ rest = middle +:+ after.
Proof.
  revert header. induction before as [|c before IH]; intros header Heq Hlen.
  - exists header. split; [reflexivity | exact Heq].
  - destruct header as [|x header]; [simpl in Hlen; lia|].
    simpl in Heq. injection Heq as <- Heq. simpl in Hlen.
    destruct (IH header Heq ltac:(lia)) as [middle [-> ->]].
    exists middle. split; reflexivity.
Qed.

Lemma one_line_before_newline m tail middle after :
  m +:+ tail = middle +:+ String Js.LF after ->
  one_line m = true ->
  exists t, middle = m +:+ t.
Proof.
  revert middle. induction m as [|c m IH]; intros middle Heq Hm.
  - now exists middle.
  - simpl in Hm. apply andb_true_iff in Hm as [Hc Hm].
    destruct middle as [|x middle].
    + simpl in Heq. injection Heq as -> _. discriminate Hc.
    + simpl in Heq. injection Heq as <- Heq.
      destruct (IH middle Heq Hm) as [t ->]. now exists t.
Qed.

(** A match that starts inside a header which a newline closes lies within
    the header. *)
Lemma match_within_header header after i :
  Release.matches_at (header +:+ Js.nl +:+ after) i ->
  i <= String.length header ->
  Release.matches_at header i.
Proof.
  intros [before [rest [Heq [Hlen Hhere]]]] Hi.
  destruct (append_split before rest header (Js.nl +:+ after) (eq_sym Heq) ltac:(lia))
    as [middle [Hheader Hrest]].
  destruct (here_covers _ _ Hhere) as [m [tail [Hm [Hline Hany]]]].
  rewrite Hm in Hrest.
  destruct (one_line_before_newline m tail middle after Hrest Hline) as [t ->].
  exists before, (m +:+ t). split; [exact Hheader|]. split; [exact Hlen | apply Hany].
Qed.

Lemma append_same_length a b c d :
  a +:+ b = c +:+ d -> String.length a = String.length c -> a = c /\ b = d.
Proof.
  revert c. induction a as [|x a IH]; intros c Heq Hlen.
  - destruct c; [now split | discriminate].
  - destruct c as [|y c]; [discriminate|].
    simpl in Heq. injection Heq as <- Heq. injection Hlen as Hlen.
    destruct (IH c Heq Hlen) as [-> ->]. now split.
Qed.

Lemma search_none s :
  Pattern.search s = (-1)%Z -> forall i, ~ Release.matches_at s i.
Proof.
  intros Hs. destruct (search_cases s) as [[discarded [kept [Hd _]]] | [_ Hno]]; [|exact Hno].
  rewrite Hs in Hd. lia.
Qed.

(** What follows a header without a match, and its newline, is found again
    whole when it opens with a match. *)
Lemma search_after_header header body :
  Pattern.search header = (-1)%Z ->
  Release.here (header +:+ Js.nl) body ->
  Pattern.search (header +:+ Js.nl +:+ body) = Z.of_nat (S (String.length header))
  /\ Js.substring (Pattern.search (header +:+ Js.nl +:+ body)) (header +:+ Js.nl +:+ body)
     = body.
Proof.
  intros Hheader Hbody.
  pose proof (search_none header Hheader) as Hno.
  assert (Hat : Release.matches_at (header +:+ Js.nl +:+ body) (S (String.length header))).
  { exists (header +:+ Js.nl), body. split; [now rewrite append_assoc|].
    split; [rewrite length_append; simpl; lia | exact Hbody]. }
  destruct (search_cases (header +:+ Js.nl +:+ body))
    as [[discarded [kept [Hs [Hc [Hh [Hmin Hsub]]]]]] | [_ Hnone]].
  - assert (Hlen : String.length discarded = S (String.length header)).
    { destruct (Nat.lt_trichotomy (String.length discarded) (S (String.length header)))
        as [Hlt | [Heq | Hgt]]; [|exact Heq|].
      - exfalso. apply (Hno (String.length discarded)).
        apply (match_within_header header body); [|lia].
        exists discarded, kept. now repeat split.
      - exfalso. exact (Hmin _ Hgt Hat). }
    rewrite <- append_assoc in Hc.
    destruct (append_same_length (header +:+ Js.nl) body discarded kept Hc) as [_ Hk].
    { rewrite length_append, Hlen. simpl. lia. }
    rewrite Hsub, Hs, Hlen. now split.
  - exfalso. exact (Hnone _ Hat).
Qed.

Lemma replace_trailing_newlines_keeps_line m tail :
  one_line m = true ->
  exists tail', Pattern.replace_trailing_newlines (m +:+ tail) = m +:+ tail'.
Proof.
  induction m as [|c m IH]; intros Hm.
  - now exists (Pattern.replace_trailing_newlines tail).
  - simpl in Hm. apply andb_true_iff in Hm as [Hc Hm].
    destruct (IH Hm) as [tail' Ht]. exists tail'. simpl.
    apply negb_true_iff in Hc. rewrite Hc. simpl. now rewrite Ht.
Qed.

(** X14: replacing the trailing newlines only drops newlines from the end
    of the text: the text is the result followed by the newlines dropped,
    the result ends with one newline when the text ended with some and with
    none otherwise, and a text is left as it is exactly when it ends with at
    most one newline. *)
Theorem replace_trailing_newlines_drops_newlines_only s :
  s = Pattern.replace_trailing_newlines s
      +:+ newlines (trailing_newlines s - Nat.min 1 (trailing_newlines s))
  /\ trailing_newlines (Pattern.replace_trailing_newlines s)
     = Nat.min 1 (trailing_newlines s)
  /\ (Pattern.replace_trailing_newlines s = s <-> trailing_newlines s <= 1).
Proof.
  destruct (trailing_newlines_split s) as [body [Hs Hb]].
  set (n := trailing_newlines s) in *.
  assert (Hr : Pattern.replace_trailing_newlines s = body +:+ newlines (Nat.min 1 n)).
  { rewrite Hs at 1. now apply replace_trailing_newlines_body. }
  assert (Ht : trailing_newlines (Pattern.replace_trailing_newlines s) = Nat.min 1 n).
  { rewrite Hr. now apply trailing_newlines_body. }
  split; [|split].
  - rewrite Hr, append_assoc, <- newlines_add.
    replace (Nat.min 1 n + (n - Nat.min 1 n)) with n by lia. exact Hs.
  - exact Ht.
  - split.
    + intros Heq. rewrite Heq in Ht. fold n in Ht. lia.
    + intros Hle. rewrite Hr. replace (Nat.min 1 n) with n by lia. now symmetry.
Qed.

Section SecondRun.
Context {ext : Collaborators}.

Lemma starts_with_match_here before text tail :
  Pattern.at_line_start (Release.backwards before) = true ->
  Pattern.heading text = true \/ String.prefix "<a name=" text = true ->
  Release.here before (Pattern.replace_trailing_newlines (text +:+ tail)).
Proof.
  intros Hline Htext.
  assert (Hhere : Release.here before text).
  { apply ReleaseFacts.pattern_spec. unfold Pattern.START_OF_LAST_RELEASE_PATTERN.
    rewrite Hline. simpl. now apply orb_true_iff. }
  destruct (here_covers _ _ Hhere) as [m [t [-> [Hm Hany]]]].
  rewrite append_assoc.
  destruct (replace_trailing_newlines_keeps_line m (t +:+ tail) Hm) as [tail' ->].
  apply Hany.
Qed.

(** X12: what one run writes, the next run cuts where the rendered text
    starts.  Outside a dry run, when the header holds no release heading or
    anchor and the rendered text opens with one, the run that follows a
    successful run takes as old content exactly the merged text of that run
    (rendered text and old content, trailing newlines collapsed): the header
    is dropped and written anew, never kept twice. *)
Theorem next_run_keeps_the_merged_text args currentVersion newVersion commits w chunks
  oldContent :
  Js.truthy_bool (dryRun args) = false ->
  changelogStream args currentVersion newVersion commits
  = (List.map OnData chunks ++ [OnEnd])%list ->
  snd (changelog_prefix args w) = Some oldContent ->
  Pattern.search (Js.to_string (changeLogHeader args)) = (-1)%Z ->
  Pattern.heading (Js.concat chunks) = true
  \/ String.prefix "<a name=" (Js.concat chunks) = true ->
  snd (changelog_prefix args (fst (changelog args currentVersion newVersion commits w)))
  = Some (Pattern.replace_trailing_newlines (Js.concat chunks +:+ oldContent)).
Proof.
  intros D Hs Hold Hheader Hrendered.
  destruct (changelog_unfold args currentVersion newVersion commits w) as [old [Hp Hc]].
  rewrite Hp in Hold. simpl in Hold. injection Hold as ->.
  set (header := Js.to_string (changeLogHeader args)) in *.
  set (merged := Pattern.replace_trailing_newlines (Js.concat chunks +:+ oldContent)).
  assert (Hfile : files (fst (changelog args currentVersion newVersion commits w))
                    !! changelogFile args
                  = Some (header +:+ Js.nl +:+ merged)).
  { rewrite Hc, (changelog_render_success _ _ _ _ _ _ chunks D Hs). simpl.
    apply lookup_insert_eq. }
  rewrite (changelog_prefix_existing _ _ _ D Hfile).
  assert (Hhere : Release.here (header +:+ Js.nl) merged).
  { apply starts_with_match_here; [|exact Hrendered].
    unfold Js.nl. now rewrite ReleaseFacts.backwards_snoc. }
  destruct (search_after_header header merged Hheader Hhere) as [Hfound Hkept].
  rewrite Hkept, Hfound. reflexivity.
Qed.

Lemma retitle_idempotent g : retitle (retitle g) = retitle g.
Proof.
  unfold retitle. destruct (String.eqb (title g) "BREAKING CHANGES") eqn:E.
  - reflexivity.
  - now rewrite E.
Qed.

(** X13: [finalizeContext] is idempotent: a context that went through the
    hook is left as it is by the hook; a group already retitled is not
    retitled again. *)
Theorem finalizeContext_idempotent args ctx :
  changelog_finalizeContext args (changelog_finalizeContext args ctx)
  = changelog_finalizeContext args ctx.
Proof.
  unfold changelog_finalizeContext. simpl. f_equal.
  - destruct (noteGroups ctx) as [groups|]; simpl; [|reflexivity].
    f_equal. rewrite List.map_map. apply List.map_ext. intros g. apply retitle_idempotent.
  - now destruct (includeDateInChangelog args) as [[|]|].
Qed.

End SecondRun.

Section WithoutEnd.
Context {ext : Collaborators}.

(** X16: a render that never signals its end (it fails, or it stalls)
    leaves an existing changelog untouched: no file changes.  When the file
    was missing, outside a dry run, the call leaves behind the file it
    created, holding one newline. *)
Theorem changelog_without_end args currentVersion newVersion commits w :
  ~ In OnEnd (changelogStream args currentVersion newVersion commits) ->
  (is_Some (files w !! changelogFile args) ->
   files (fst (changelog args currentVersion newVersion commits w)) = files w)
  /\ (files w !! changelogFile args = None -> Js.truthy_bool (dryRun args) = false ->
      files (fst (changelog args currentVersion newVersion commits w))
      = <[changelogFile args := Js.nl]> (files w)).
Proof.
  intros Hno.
  destruct (changelog_unfold args currentVersion newVersion commits w) as [old [_ Hc]].
  assert (Hfiles : files (fst (changelog args currentVersion newVersion commits w))
                   = files (createChangelogIfMissing args w)).
  { rewrite Hc, <- changelog_prefix_files. f_equal. unfold changelog_render.
    pose proof (fold_handle_no_end args old _ (fst (changelog_prefix args w))
                  {| content := EmptyString; promise := Pending |} Hno) as Hf.
    destruct (fold_left _ _ _) as [w' c]. exact Hf. }
  rewrite Hfiles. split.
  - intros Hex. now rewrite createChangelogIfMissing_present.
  - intros Hmissing D. unfold createChangelogIfMissing, existsSync, writeFile.
    rewrite D, Hmissing.
    rewrite bool_decide_eq_false_2 by (intros [x Hx]; discriminate).
    reflexivity.
Qed.

End WithoutEnd.

(** * The further properties on concrete runs *)

Lemma changelog_touches_its_file_only_witness :
  "README.md" <> changelogFile (Demo.options None)
  /\ files (fst (changelog (Demo.options None) "1.2.0" "1.3.0" Demo.commits
                   Demo.world_with_history)) !! "README.md"
     = files Demo.world_with_history !! "README.md".
Proof.
  split; [discriminate|].
  apply (proj1 (changelog_touches_its_file_only (Demo.options None) "1.2.0" "1.3.0"
                  Demo.commits Demo.world_with_history "README.md")).
  discriminate.
Defined.

Lemma changelog_leaves_the_file_witness :
  Js.truthy_bool (dryRun (Demo.options None)) = false
  /\ is_Some (files (fst (changelog (Demo.options None) "1.2.0" "1.3.0" [Demo.poison]
                            Demo.empty_world)) !! changelogFile (Demo.options None)).
Proof.
  split; [reflexivity|].
  apply changelog_leaves_the_file. reflexivity.
Defined.

Lemma changelog_never_settles_witness :
  stalled (changelogStream (ext := Demo.hanging) (Demo.options None) "1.2.0" "1.3.0"
             Demo.commits)
  /\ changelog (ext := Demo.hanging) (Demo.options None) "1.2.0" "1.3.0" Demo.commits
       Demo.world_with_history
     = (fst (changelog_prefix (Demo.options None) Demo.world_with_history), Pending).
Proof.
  assert (H : stalled (changelogStream (ext := Demo.hanging) (Demo.options None) "1.2.0"
                         "1.3.0" Demo.commits)).
  { exists ["## "; "1.3.0"]. reflexivity. }
  split; [exact H|].
  apply (changelog_never_settles (ext := Demo.hanging)). exact H.
Defined.

Lemma changelog_first_run_witness :
  Js.truthy_bool (dryRun (Demo.options None)) = false
  /\ files Demo.empty_world !! changelogFile (Demo.options None) = None
  /\ changelogStream (Demo.options None) "1.2.0" "1.3.0" Demo.commits
     = (List.map OnData Demo.chunks ++ [OnEnd])%list
  /\ files (fst (changelog (Demo.options None) "1.2.0" "1.3.0" Demo.commits Demo.empty_world))
       !! "CHANGELOG.md"
     = Some ("# Changelog" +:+ Js.nl +:+ Js.concat Demo.chunks).
Proof.
  split; [reflexivity|]. split; [reflexivity|]. split; [reflexivity|].
  rewrite (changelog_first_run (Demo.options None) "1.2.0" "1.3.0" Demo.commits
             Demo.empty_world Demo.chunks);
    reflexivity.
Defined.

Lemma writeChangelogs_touches_changelogs_only_witness :
  "README.md" <> changelogFile (Demo.options (Some "separate"))
  /\ (forall pkg, In pkg Demo.packages -> unstable pkg = true ->
        "README.md" <> package_changelog (Demo.options (Some "separate")) pkg)
  /\ files (fst (writeChangelogs [0] (Demo.options (Some "separate")) Demo.v1 Demo.v2
                   Demo.commits Demo.packages Demo.world_with_history)) !! "README.md"
     = files Demo.world_with_history !! "README.md".
Proof.
  assert (H : forall pkg, In pkg Demo.packages -> unstable pkg = true ->
                "README.md" <> package_changelog (Demo.options (Some "separate")) pkg).
  { intros pkg [<- | [<- | []]] Hu; discriminate. }
  split; [discriminate|]. split; [exact H|].
  apply (proj1 (writeChangelogs_touches_changelogs_only [0] (Demo.options (Some "separate"))
                  Demo.v1 Demo.v2 Demo.commits Demo.packages Demo.world_with_history
                  "README.md")); [discriminate | exact H].
Defined.

Lemma writeChangelogs_dry_run_witness :
  dryRun (with_treatment Demo.dry (Some "separate")) = Some true
  /\ files (fst (writeChangelogs [0] (with_treatment Demo.dry (Some "separate")) Demo.v1
                   Demo.v2 Demo.commits Demo.packages Demo.empty_world))
     = files Demo.empty_world.
Proof.
  split; [reflexivity|].
  apply writeChangelogs_dry_run. reflexivity.
Defined.

Lemma writeChangelogs_rejects_with_the_render_witness :
  Js.truthy_bool (skip (Demo.options (Some "include")) ≫= LifecyclesSkip.changelog) = false
  /\ experimentalChangesTreatment (Demo.options (Some "include")) = Some "include"
  /\ changelogStream (Demo.options (Some "include")) "1.2.0" "1.3.0" [Demo.poison]
     = (List.map OnData [] ++ OnError "poisoned" :: [])%list
  /\ snd (writeChangelogs [0] (Demo.options (Some "include")) Demo.v1 Demo.v2 [Demo.poison]
            Demo.packages Demo.empty_world)
     = Rejected (Emitted "poisoned").
Proof.
  split; [reflexivity|]. split; [reflexivity|]. split; [reflexivity|].
  apply (writeChangelogs_rejects_with_the_render (ext := Demo.collaborators) [0]
           (Demo.options (Some "include")) Demo.v1
           Demo.v2 [Demo.poison] Demo.packages Demo.empty_world [] "poisoned" []).
  - reflexivity.
  - left. split; [now right | reflexivity].
Defined.

Lemma separate_without_unstable_is_strip_witness :
  List.filter unstable [Demo.stable_pkg] = []
  /\ Js.truthy_string (alphaVersion Demo.v1) = true
  /\ Js.truthy_string (alphaVersion Demo.v2) = true
  /\ writeChangelogs [0] (with_treatment (Demo.options None) (Some "separate")) Demo.v1
       Demo.v2 Demo.commits [Demo.stable_pkg] Demo.empty_world
     = writeChangelogs [] (with_treatment (Demo.options None) (Some "strip")) Demo.v1
         Demo.v2 Demo.commits [Demo.stable_pkg] Demo.empty_world.
Proof.
  split; [reflexivity|]. split; [reflexivity|]. split; [reflexivity|].
  apply separate_without_unstable_is_strip; reflexivity.
Defined.

Lemma separate_returns_each_package_in_order_witness :
  Js.truthy_bool (skip (Demo.options (Some "separate")) ≫= LifecyclesSkip.changelog) = false
  /\ experimentalChangesTreatment (Demo.options (Some "separate")) = Some "separate"
  /\ alphaVersion Demo.v1 = Some "1.2.0-alpha.0" /\ "1.2.0-alpha.0" <> EmptyString
  /\ alphaVersion Demo.v2 = Some "1.3.0-alpha.0" /\ "1.3.0-alpha.0" <> EmptyString
  /\ (forall pkg, In pkg Demo.packages -> unstable pkg = true ->
        exists text,
          outcome_of EmptyString
            (changelogStream
               (with_changelogFile (Demo.options (Some "separate"))
                  (package_changelog (Demo.options (Some "separate")) pkg))
               "1.2.0-alpha.0" "1.3.0-alpha.0"
               (filterCommits Demo.commits
                  {| excludePackages := None;
                     includePackages := Some [simplifiedName pkg] |}))
          = Resolved text)
  /\ outcome_of EmptyString
       (changelogStream (Demo.options (Some "separate")) "1.2.0" "1.3.0"
          (stableCommits_of Demo.commits Demo.packages))
     = Resolved (fileContents Demo.stable_result)
  /\ exists pkgResults,
       snd (writeChangelogs (seq 0 (length (List.filter unstable Demo.packages)))
              (Demo.options (Some "separate")) Demo.v1 Demo.v2 Demo.commits Demo.packages
              Demo.empty_world)
       = Resolved (pkgResults ++ [Demo.stable_result])%list
       /\ Forall2 (package_result (Demo.options (Some "separate")) "1.2.0-alpha.0"
                     "1.3.0-alpha.0" Demo.commits)
            (List.filter unstable Demo.packages) pkgResults.
Proof.
  assert (H : forall pkg, In pkg Demo.packages -> unstable pkg = true ->
                exists text,
                  outcome_of EmptyString
                    (changelogStream
                       (with_changelogFile (Demo.options (Some "separate"))
                          (package_changelog (Demo.options (Some "separate")) pkg))
                       "1.2.0-alpha.0" "1.3.0-alpha.0"
                       (filterCommits Demo.commits
                          {| excludePackages := None;
                             includePackages := Some [simplifiedName pkg] |}))
                  = Resolved text).
  { intros pkg [<- | [<- | []]] Hu; [discriminate|]. eexists. reflexivity. }
  split; [reflexivity|]. split; [reflexivity|].
  split; [reflexivity|]. split; [discriminate|].
  split; [reflexivity|]. split; [discriminate|].
  split; [exact H|]. split; [reflexivity|].
  apply (separate_returns_each_package_in_order (Demo.options (Some "separate")) Demo.v1
           Demo.v2 Demo.commits Demo.packages Demo.empty_world "1.2.0-alpha.0"
           "1.3.0-alpha.0" (fileContents Demo.stable_result));
    [reflexivity | reflexivity | reflexivity | discriminate | reflexivity | discriminate
    | exact H | reflexivity].
Defined.

Lemma search_offset_and_kept_text_witness :
  Pattern.search Demo.history <> (-1)%Z
  /\ exists c tail,
       Js.substring (Pattern.search Demo.history) Demo.history = String c tail
       /\ (c = "#"%char \/ c = "<"%char).
Proof.
  assert (H : Pattern.search Demo.history <> (-1)%Z) by (vm_compute; discriminate).
  split; [exact H|].
  apply (proj2 (search_offset_and_kept_text Demo.history)). exact H.
Defined.

Lemma next_run_keeps_the_merged_text_witness :
  Js.truthy_bool (dryRun (Demo.options None)) = false
  /\ changelogStream (Demo.options None) "1.2.0" "1.3.0" Demo.commits
     = (List.map OnData Demo.chunks ++ [OnEnd])%list
  /\ snd (changelog_prefix (Demo.options None) Demo.world_with_history)
     = Some ("## [1.2.0]" +:+ Js.nl +:+ "* old entry")
  /\ Pattern.search (Js.to_string (changeLogHeader (Demo.options None))) = (-1)%Z
  /\ (Pattern.heading (Js.concat Demo.chunks) = true
      \/ String.prefix "<a name=" (Js.concat Demo.chunks) = true)
  /\ snd (changelog_prefix (Demo.options None)
            (fst (changelog (Demo.options None) "1.2.0" "1.3.0" Demo.commits
                    Demo.world_with_history)))
     = Some (Pattern.replace_trailing_newlines
               (Js.concat Demo.chunks +:+ "## [1.2.0]" +:+ Js.nl +:+ "* old entry")).
Proof.
  split; [reflexivity|]. split; [reflexivity|]. split; [reflexivity|].
  split; [reflexivity|]. split; [now left|].
  apply (next_run_keeps_the_merged_text (Demo.options None) "1.2.0" "1.3.0" Demo.commits
           Demo.world_with_history Demo.chunks);
    [reflexivity | reflexivity | reflexivity | reflexivity | now left].
Defined.

Lemma replace_trailing_newlines_drops_newlines_only_witness :
  trailing_newlines ("a" +:+ Js.nl) <= 1
  /\ Pattern.replace_trailing_newlines ("a" +:+ Js.nl) = "a" +:+ Js.nl.
Proof.
  assert (H : trailing_newlines ("a" +:+ Js.nl) <= 1) by (simpl; lia).
  split; [exact H|].
  apply (proj2 (proj2 (proj2 (replace_trailing_newlines_drops_newlines_only
                                ("a" +:+ Js.nl))))).
  exact H.
Defined.

Lemma unsupported_treatment_witness :
  Js.truthy_bool (skip (Demo.options (Some "merge")) ≫= LifecyclesSkip.changelog) = false
  /\ experimentalChangesTreatment (Demo.options (Some "merge")) = Some "merge"
  /\ "merge" <> "include" /\ "merge" <> "strip" /\ "merge" <> "separate"
  /\ writeChangelogs [0] (Demo.options (Some "merge")) Demo.v1 Demo.v2 Demo.commits
       Demo.packages Demo.world_with_history
     = (Demo.world_with_history,
        Rejected (Error "unsupported experimentalChanges type: merge")).
Proof.
  split; [reflexivity|]. split; [reflexivity|].
  split; [discriminate|]. split; [discriminate|]. split; [discriminate|].
  apply (unsupported_treatment [0] (Demo.options (Some "merge")) Demo.v1 Demo.v2
           Demo.commits Demo.packages Demo.world_with_history "merge");
    [reflexivity | reflexivity | discriminate | discriminate | discriminate].
Defined.

Lemma changelog_without_end_witness :
  ~ In OnEnd (changelogStream (Demo.options None) "1.2.0" "1.3.0" [Demo.poison])
  /\ files Demo.empty_world !! changelogFile (Demo.options None) = None
  /\ Js.truthy_bool (dryRun (Demo.options None)) = false
  /\ files (fst (changelog (Demo.options None) "1.2.0" "1.3.0" [Demo.poison]
                   Demo.empty_world))
     = <[changelogFile (Demo.options None) := Js.nl]> (files Demo.empty_world).
Proof.
  assert (H : ~ In OnEnd (changelogStream (Demo.options None) "1.2.0" "1.3.0"
                            [Demo.poison])).
  { intros [H | []]. discriminate H. }
  split; [exact H|]. split; [reflexivity|]. split; [reflexivity|].
  apply (proj2 (changelog_without_end (Demo.options None) "1.2.0" "1.3.0" [Demo.poison]
                  Demo.empty_world H)); reflexivity.
Defined.
